(** * robot_api: the movement facade and the pose query of [robot_api/core.py]

    A shallow embedding of [_isinstance], [_get_at] and the methods of [Base]
    (get_pose, move_to_goal, move_to_pose, move_to_tuple_pose,
    move_to_position_and_orientation, move_to_coordinates, move_to_waypoint,
    move), with the process state they act on passed explicitly.

    Conventions of the model:
    - a Python [float] is the rational it denotes ([Qc], canonical fractions,
      so that equal numbers are equal terms); rounding, infinities and NaN are
      outside the model.  No function of core.py computes with pose
      coordinates; the only float arithmetic is the clock of [get_pose];
    - [Storage.waypoints] (a dict keyed by name) is a [gmap string data]: the
      store holds plain data (numbers, strings, lists and tuples of them),
      compared with Python's [==];
    - a numpy array is a value of its own ([VArray]): it is no Sequence, and
      its truth test raises when it has more than one element;
    - a raised exception ends the call: every method is a function
      [world -> outcome * world];
    - the action client, the pose service, rospy's log and the two clocks
      are fields of [world]; helpers of robot_api/lib.py and of tf are the
      fields of the class [Externals].
    get_2d_pose is not part of the model. *)

From Stdlib Require Import QArith Qcanon Qround Lqa.
From stdpp Require Import gmap strings list fin_maps numbers pretty.

Open Scope string_scope.
Open Scope Qc_scope.

(** ** Python values *)

Abbreviation float := Qc.

(** geometry_msgs/Pose: a point (x, y, z) and a quaternion (x, y, z, w). *)
Record Point := mkPoint { pt_x : float; pt_y : float; pt_z : float }.
Record Quaternion := mkQuaternion { q_x : float; q_y : float; q_z : float; q_w : float }.
Record Pose := mkPose { pose_position : Point; pose_orientation : Quaternion }.

(** move_base_msgs/MoveBaseGoal, reduced to the fields core.py touches:
    [goal.target_pose.header.frame_id], [goal.target_pose.header.stamp]
    (a rospy.Time, integer nanoseconds) and [goal.target_pose.pose]. *)
Record MoveBaseGoal := mkGoal {
  header_frame_id : string;
  header_stamp : Z;
  target_pose : Pose
}.

(** The values that can reach [move] as positional or keyword arguments.
    [VArray first rest] is a one-dimensional numpy.ndarray of floats that is
    not empty (what tf.transformations returns for a quaternion);
    [VObject cls] is an instance of any other class [cls], one that defines
    neither [__bool__] nor [__len__] and has none of the attributes core.py
    reads. *)
Unset Elimination Schemes.
Inductive pyval :=
| VNone
| VBool (b : bool)
| VInt (n : Z)
| VFloat (f : float)
| VStr (s : string)
| VList (l : list pyval)
| VTuple (l : list pyval)
| VPose (p : Pose)
| VGoal (g : MoveBaseGoal)
| VArray (first : float) (rest : list float)
| VObject (cls : string).
Set Elimination Schemes.

#[global] Instance Point_eq_dec : EqDecision Point.
Proof. solve_decision. Defined.
#[global] Instance Quaternion_eq_dec : EqDecision Quaternion.
Proof. solve_decision. Defined.
#[global] Instance Pose_eq_dec : EqDecision Pose.
Proof. solve_decision. Defined.
#[global] Instance MoveBaseGoal_eq_dec : EqDecision MoveBaseGoal.
Proof. solve_decision. Defined.

(** Equality of values as terms (the same value written the same way), by
    which keyword maps are compared; Python's [==] is [py_eq] below. *)
Fixpoint pyval_eqb (a b : pyval) {struct a} : bool :=
  let fix list_eqb (l k : list pyval) {struct l} : bool :=
    match l, k with
    | [], [] => true
    | u :: l', v :: k' => pyval_eqb u v && list_eqb l' k'
    | _, _ => false
    end in
  match a, b with
  | VNone, VNone => true
  | VBool x, VBool y => bool_decide (x = y)
  | VInt x, VInt y => bool_decide (x = y)
  | VFloat x, VFloat y => bool_decide (x = y)
  | VStr x, VStr y => bool_decide (x = y)
  | VList l, VList k => list_eqb l k
  | VTuple l, VTuple k => list_eqb l k
  | VPose x, VPose y => bool_decide (x = y)
  | VGoal x, VGoal y => bool_decide (x = y)
  | VArray x l, VArray y k => bool_decide (x = y) && bool_decide (l = k)
  | VObject x, VObject y => bool_decide (x = y)
  | _, _ => false
  end.

(** Induction over values, with the elements of a list or tuple covered. *)
Section pyval_induction.
Variable P : pyval -> Prop.
Hypothesis HNone : P VNone.
Hypothesis HBool : forall b, P (VBool b).
Hypothesis HInt : forall n, P (VInt n).
Hypothesis HFloat : forall f, P (VFloat f).
Hypothesis HStr : forall s, P (VStr s).
Hypothesis HList : forall l, Forall P l -> P (VList l).
Hypothesis HTuple : forall l, Forall P l -> P (VTuple l).
Hypothesis HPose : forall p, P (VPose p).
Hypothesis HGoal : forall g, P (VGoal g).
Hypothesis HArray : forall f l, P (VArray f l).
Hypothesis HObject : forall c, P (VObject c).

Fixpoint pyval_ind (v : pyval) : P v :=
  let fix elements (l : list pyval) : Forall P l :=
    match l with
    | [] => Forall_nil_2 P
    | u :: l' => Forall_cons_2 P u l' (pyval_ind u) (elements l')
    end in
  match v with
  | VNone => HNone
  | VBool b => HBool b
  | VInt n => HInt n
  | VFloat f => HFloat f
  | VStr s => HStr s
  | VList l => HList l (elements l)
  | VTuple l => HTuple l (elements l)
  | VPose p => HPose p
  | VGoal g => HGoal g
  | VArray f l => HArray f l
  | VObject c => HObject c
  end.
End pyval_induction.

Lemma pyval_list_eqb_eq (l : list pyval) :
  Forall (fun a => forall b, pyval_eqb a b = true <-> a = b) l ->
  forall k,
    (fix list_eqb (l k : list pyval) {struct l} : bool :=
       match l, k with
       | [], [] => true
       | u :: l', v :: k' => pyval_eqb u v && list_eqb l' k'
       | _, _ => false
       end) l k = true <-> l = k.
Proof.
  induction 1 as [ | u l Hu _ IH]; intros [ | v k];
    try (split; [discriminate | congruence]); [easy | ].
  rewrite andb_true_iff, Hu, IH. split.
  - intros [-> ->]. reflexivity.
  - intros [= -> ->]. done.
Qed.

Lemma pyval_eqb_eq (a b : pyval) : pyval_eqb a b = true <-> a = b.
Proof.
  revert b. induction a using pyval_ind; intros []; simpl;
    try (split; [discriminate | congruence]);
    try (rewrite bool_decide_eq_true; split; congruence);
    try (rewrite andb_true_iff, !bool_decide_eq_true; split; [intros []| intros [= ]]; by subst);
    try done;
    (etrans; [apply pyval_list_eqb_eq; assumption | split; congruence]).
Qed.

#[global] Instance pyval_eq_dec : EqDecision pyval.
Proof.
  intros a b. destruct (pyval_eqb a b) eqn:E.
  - left. by apply pyval_eqb_eq.
  - right. intros H. apply pyval_eqb_eq in H. congruence.
Defined.

(** ** Plain data and Python's [==] *)

Unset Elimination Schemes.
(** Modelled from the spec: the values held by [Storage.waypoints] and
    returned by [TuplePose.from_pose] (robot_api/lib.py is not under src/).
    The Waypoint Store maps a name to a pose in canonical tuple form, a
    position and an orientation that are ordered sequences of numbers.
    [data] is what these are made of: None, numbers, strings, and lists and
    tuples of data.  No numpy array and no object of another class is stored,
    so that [==] on stored values is the built-in one and cannot raise. *)
Inductive data :=
| DNone
| DBool (b : bool)
| DInt (n : Z)
| DFloat (f : float)
| DStr (s : string)
| DList (l : list data)
| DTuple (l : list data).
Set Elimination Schemes.

Section data_induction.
Variable P : data -> Prop.
Hypothesis HNone : P DNone.
Hypothesis HBool : forall b, P (DBool b).
Hypothesis HInt : forall n, P (DInt n).
Hypothesis HFloat : forall f, P (DFloat f).
Hypothesis HStr : forall s, P (DStr s).
Hypothesis HList : forall l, Forall P l -> P (DList l).
Hypothesis HTuple : forall l, Forall P l -> P (DTuple l).

Fixpoint data_ind (d : data) : P d :=
  let fix elements (l : list data) : Forall P l :=
    match l with
    | [] => Forall_nil_2 P
    | u :: l' => Forall_cons_2 P u l' (data_ind u) (elements l')
    end in
  match d with
  | DNone => HNone
  | DBool b => HBool b
  | DInt n => HInt n
  | DFloat f => HFloat f
  | DStr s => HStr s
  | DList l => HList l (elements l)
  | DTuple l => HTuple l (elements l)
  end.
End data_induction.

(** The same value, as an argument of a call. *)
Fixpoint value (d : data) : pyval :=
  match d with
  | DNone => VNone
  | DBool b => VBool b
  | DInt n => VInt n
  | DFloat f => VFloat f
  | DStr s => VStr s
  | DList l => VList (value <$> l)
  | DTuple l => VTuple (value <$> l)
  end.

(** The number a bool, an int or a float denotes: True is 1, False is 0. *)
Definition number (d : data) : option float :=
  match d with
  | DBool b => Some (if b then 1 else 0)
  | DInt n => Some (Q2Qc (inject_Z n))
  | DFloat f => Some f
  | _ => None
  end.

(** Python's [a == b] on plain data: numbers are compared by their value
    whatever their type (1 == 1.0 == True), strings by their characters, a
    list with a list and a tuple with a tuple, element by element when the
    lengths agree; everything else is unequal. *)
Fixpoint py_eq (a b : data) {struct a} : bool :=
  let fix all_eq (l k : list data) {struct l} : bool :=
    match l, k with
    | [], [] => true
    | u :: l', v :: k' => py_eq u v && all_eq l' k'
    | _, _ => false
    end in
  match a, b with
  | DNone, DNone => true
  | DStr s, DStr t => bool_decide (s = t)
  | DList l, DList k => all_eq l k
  | DTuple l, DTuple k => all_eq l k
  | _, _ =>
      match number a, number b with
      | Some x, Some y => bool_decide (x = y)
      | _, _ => false
      end
  end.

(** [obj in values]: some element equals [obj]. *)
Definition py_in (obj : data) (values : list data) : bool :=
  existsb (fun element => py_eq element obj) values.

(** Equality of data as terms, by which stores are compared. *)
Fixpoint data_eqb (a b : data) {struct a} : bool :=
  let fix list_eqb (l k : list data) {struct l} : bool :=
    match l, k with
    | [], [] => true
    | u :: l', v :: k' => data_eqb u v && list_eqb l' k'
    | _, _ => false
    end in
  match a, b with
  | DNone, DNone => true
  | DBool x, DBool y => bool_decide (x = y)
  | DInt x, DInt y => bool_decide (x = y)
  | DFloat x, DFloat y => bool_decide (x = y)
  | DStr x, DStr y => bool_decide (x = y)
  | DList l, DList k => list_eqb l k
  | DTuple l, DTuple k => list_eqb l k
  | _, _ => false
  end.

Lemma data_list_eqb_eq (l : list data) :
  Forall (fun a => forall b, data_eqb a b = true <-> a = b) l ->
  forall k,
    (fix list_eqb (l k : list data) {struct l} : bool :=
       match l, k with
       | [], [] => true
       | u :: l', v :: k' => data_eqb u v && list_eqb l' k'
       | _, _ => false
       end) l k = true <-> l = k.
Proof.
  induction 1 as [ | u l Hu _ IH]; intros [ | v k];
    try (split; [discriminate | congruence]); [easy | ].
  rewrite andb_true_iff, Hu, IH. split.
  - intros [-> ->]. reflexivity.
  - intros [= -> ->]. done.
Qed.

Lemma data_eqb_eq (a b : data) : data_eqb a b = true <-> a = b.
Proof.
  revert b. induction a using data_ind; intros []; simpl;
    try (split; [discriminate | congruence]);
    try (rewrite bool_decide_eq_true; split; congruence);
    try done;
    (etrans; [apply data_list_eqb_eq; assumption | split; congruence]).
Qed.

#[global] Instance data_eq_dec : EqDecision data.
Proof.
  intros a b. destruct (data_eqb a b) eqn:E.
  - left. by apply data_eqb_eq.
  - right. intros H. apply data_eqb_eq in H. congruence.
Defined.

(** ** Runtime type tests: [_isinstance] and [_get_at] *)

(** The classes [move] tests against with a plain [isinstance]. *)
Inductive pyclass := Cfloat | CMoveBaseGoal | CPose.

(** The type expressions [_isinstance] decomposes with [get_origin] and
    [get_args]: a plain class, [Union[...]], a fixed-length [Tuple[...]], a
    variadic [Tuple[t, ...]] and [Sequence] / [Sequence[t]].  The [Mapping]
    branch and the NotImplementedError of any other generic are not reached
    from core.py (no dict value is modelled). *)
#[warnings="-register-all"]
Inductive pytype :=
| TClass (c : pyclass)
| TUnion (args : list pytype)
| TTuple (args : list pytype)
| TTupleOf (arg : pytype)
| TSequence (arg : option pytype).

(** [isinstance(obj, cls)]: bool and int are not float, and neither is an
    array. *)
Definition isinstance (obj : pyval) (c : pyclass) : bool :=
  match c, obj with
  | Cfloat, VFloat _ => true
  | CMoveBaseGoal, VGoal _ => true
  | CPose, VPose _ => true
  | _, _ => false
  end.

Definition chars (s : string) : list pyval :=
  (fun c => VStr (String c EmptyString)) <$> String.list_ascii_of_string s.

(** The elements of [obj] when [isinstance(obj, collections.abc.Sequence)]:
    lists, tuples and strings (whose elements are one-character strings).
    A numpy array is not a Sequence. *)
Definition sequence_elements (obj : pyval) : option (list pyval) :=
  match obj with
  | VList l | VTuple l => Some l
  | VStr s => Some (chars s)
  | _ => None
  end.

Fixpoint _isinstance (obj : pyval) (type_or_generic : pytype) {struct type_or_generic} : bool :=
  match type_or_generic with
  | TClass c => isinstance obj c
  | TUnion args => existsb (fun arg => _isinstance obj arg) args
  | TTuple args =>
      match obj with
      | VTuple l =>
          bool_decide (length l = length args)
          && (fix all_zip (args : list pytype) (l : list pyval) {struct args} : bool :=
                match args, l with
                | arg :: args', element :: l' => _isinstance element arg && all_zip args' l'
                | _, _ => true
                end) args l
      | _ => false
      end
  | TTupleOf arg =>
      match obj with
      | VTuple l => forallb (fun element => _isinstance element arg) l
      | _ => false
      end
  | TSequence None =>
      match sequence_elements obj with Some _ => true | None => false end
  | TSequence (Some arg) =>
      match sequence_elements obj with
      | Some l => forallb (fun element => _isinstance element arg) l
      | None => false
      end
  end.

(** [args[index]] if it exists and its type matches, else None. *)
Definition _get_at (args : list pyval) (index : nat) (type_or_generic : pytype) : pyval :=
  match args !! index with
  | Some v => if _isinstance v type_or_generic then v else VNone
  | None => VNone
  end.

(** [v is None]. *)
Definition is_None (v : pyval) : bool :=
  match v with VNone => true | _ => false end.

Definition Tfloat : pytype := TClass Cfloat.
Definition TSequence_float : pytype := TSequence (Some Tfloat).
(** [Union[Pose, Tuple[Sequence[float], Sequence[float]]]] *)
Definition TPoseLike : pytype :=
  TUnion [TClass CPose; TTuple [TSequence_float; TSequence_float]].

(** ** Exceptions, results and the process state *)

Inductive exception :=
| ValueError (msg : string)
| AttributeError (msg : string)
| LookupException
| ExtrapolationException
| ConnectivityException.

(** How an exception leaves a method.
    Modelled from the spec: Excepthook.expect (robot_api/excepthook.py is not
    under src/).  [Expect e] is [raise Excepthook.expect(e)], the reported
    error carrying the original cause [e]: InvalidArguments for a ValueError
    of [move], PoseUnavailable for a pose-service failure of [get_pose].
    [Raw e] is an exception that propagates as the callee raised it. *)
Inductive raised :=
| Expect (cause : exception)
| Raw (e : exception).

Inductive outcome (A : Type) :=
| Return (a : A)
| Raise (r : raised).
Arguments Return {A} a.
Arguments Raise {A} r.

(** numpy's message for the truth test of an array of several elements. *)
Definition AMBIGUOUS_TRUTH : string :=
  "The truth value of an array with more than one element is ambiguous. Use a.any() or a.all()".

(** [if f:] for a float. *)
Definition float_truthy (f : float) : bool := negb (bool_decide (f = 0)).

(** [bool(v)], as tested by [not position]: the truth value of [v], or the
    exception the test raises.  A numpy array of one element has the truth
    value of that element; of an array of more than one element there is
    none, the test raises a ValueError. *)
Definition truthy (v : pyval) : outcome bool :=
  match v with
  | VNone => Return false
  | VBool b => Return b
  | VInt n => Return (negb (bool_decide (n = 0%Z)))
  | VFloat f => Return (float_truthy f)
  | VStr s => Return (negb (bool_decide (s = EmptyString)))
  | VList l | VTuple l => Return match l with [] => false | _ => true end
  | VPose _ | VGoal _ | VObject _ => Return true
  | VArray f [] => Return (float_truthy f)
  | VArray _ (_ :: _) => Raise (Raw (ValueError AMBIGUOUS_TRUTH))
  end.

(** [type(v).__name__], as it appears in an AttributeError. *)
Definition type_name (v : pyval) : string :=
  match v with
  | VNone => "NoneType"
  | VBool _ => "bool"
  | VInt _ => "int"
  | VFloat _ => "float"
  | VStr _ => "str"
  | VList _ => "list"
  | VTuple _ => "tuple"
  | VPose _ => "Pose"
  | VGoal _ => "MoveBaseGoal"
  | VArray _ _ => "numpy.ndarray"
  | VObject cls => cls
  end.

(** The message of the AttributeError raised by [v.attribute] when [v] has
    no such attribute. *)
Definition no_attribute (v : pyval) (attribute : string) : string :=
  "'" +:+ type_name v +:+ "' object has no attribute '" +:+ attribute +:+ "'".

Inductive callback := Callback (id : nat).

(** A call on the move_base action client. *)
Inductive dispatch :=
| SendGoalAndWait (goal : MoveBaseGoal) (timeout : float)
| SendGoal (goal : MoveBaseGoal) (done_cb : callback).

(** What a movement method returns: None, or the terminal result the
    action client returned for a call it waited for. *)
Inductive retval :=
| RNone
| RActor (d : dispatch).

(** Modelled from the spec: what the navigation actor returns for a call
    (the action client is not code of core.py).  sendGoalAndWait(goal,
    timeout) returns the terminal result of that goal; sendGoalAsync(goal,
    callback) returns nothing, the result goes to the callback. *)
Definition client_result (d : dispatch) : retval :=
  match d with
  | SendGoalAndWait _ _ => RActor d
  | SendGoal _ _ => RNone
  end.

(** What happened to the store and the action client, in the order it
    happened. *)
Inductive event :=
| Registered (name : string) (pose : data)   (* a waypoint was added to the store *)
| Dispatched (d : dispatch).                 (* the action client received a call *)

Inductive loglevel := LogDebug | LogWarn | LogErr.

Inductive tf_result :=
| TfPose (pose : pyval)
| TfRaise (e : exception).

(** One answer of the pose service and the time it took. *)
Record tf_reply := mkReply { took : float; result : tf_result }.

Record world := mkWorld {
  waypoints : gmap string data;       (* Storage.waypoints *)
  connected : bool;                   (* the move_base action client is connected *)
  server_up : bool;                   (* a move_base action server can be reached *)
  sent : list dispatch;               (* calls received by the action client, oldest first *)
  history : list event;               (* registrations and calls, oldest first *)
  log : list (loglevel * string);     (* rospy.logdebug / logwarn / logerr, oldest first *)
  clock : float;                      (* time.time() *)
  ros_now : Z;                        (* rospy.Time.now() *)
  tf_calls : nat;                     (* lookupTransform calls made so far *)
  tf_service : nat -> string -> string -> tf_reply;  (* the answer to the n-th call *)
  namespace : string                  (* Base._namespace *)
}.

(** [Storage.waypoints[name] = pose] *)
Definition store_waypoint (name : string) (pose : data) (w : world) : world :=
  mkWorld (<[name := pose]> (waypoints w)) (connected w) (server_up w) (sent w)
    (history w ++ [Registered name pose]) (log w) (clock w) (ros_now w)
    (tf_calls w) (tf_service w) (namespace w).
Definition set_connected (b : bool) (w : world) : world :=
  mkWorld (waypoints w) b (server_up w) (sent w) (history w) (log w) (clock w) (ros_now w)
    (tf_calls w) (tf_service w) (namespace w).
Definition record_sent (d : dispatch) (w : world) : world :=
  mkWorld (waypoints w) (connected w) (server_up w) (sent w ++ [d])
    (history w ++ [Dispatched d]) (log w) (clock w)
    (ros_now w) (tf_calls w) (tf_service w) (namespace w).
Definition record_log (level : loglevel) (msg : string) (w : world) : world :=
  mkWorld (waypoints w) (connected w) (server_up w) (sent w) (history w)
    (log w ++ [(level, msg)])
    (clock w) (ros_now w) (tf_calls w) (tf_service w) (namespace w).
Definition advance_clock (d : float) (w : world) : world :=
  mkWorld (waypoints w) (connected w) (server_up w) (sent w) (history w) (log w) (clock w + d)
    (ros_now w) (tf_calls w) (tf_service w) (namespace w).
Definition count_tf_call (w : world) : world :=
  mkWorld (waypoints w) (connected w) (server_up w) (sent w) (history w) (log w) (clock w)
    (ros_now w) (S (tf_calls w)) (tf_service w) (namespace w).

(** The state-and-exception monad of the methods. *)
Definition M (A : Type) : Type := world -> outcome A * world.

#[global] Instance M_ret : MRet M := fun A a w => (Return a, w).
#[global] Instance M_bind : MBind M := fun A B f m w =>
  match m w with
  | (Return a, w') => f a w'
  | (Raise r, w') => (Raise r, w')
  end.

Definition raise {A : Type} (r : raised) : M A := fun w => (Raise r, w).
Definition gets {A : Type} (f : world -> A) : M A := fun w => (Return (f w), w).
Definition modify (f : world -> world) : M unit := fun w => (Return tt, f w).

Definition logdebug (msg : string) : M unit := modify (record_log LogDebug msg).
Definition logerr (msg : string) : M unit := modify (record_log LogErr msg).

(** [bool(v)] inside a method: the truth value, or the exception the test
    raises, which ends the method. *)
Definition truth (v : pyval) : M bool := fun w => (truthy v, w).

(** [not v] *)
Definition py_not (v : pyval) : M bool := b ← truth v; mret (negb b).

(** [a or b] and [a and b] between two tests: [b] is evaluated only when
    [a] does not decide. *)
Definition or_else (a b : M bool) : M bool := x ← a; if x : bool then mret true else b.
Definition and_then (a b : M bool) : M bool := x ← a; if x : bool then b else mret false.

(** ** Collaborators of core.py

    Functions core.py calls whose code is not part of core.py: the tf
    library, and helpers of robot_api/lib.py (not under src/).  The model is
    parametric in them. *)
Class Externals := {
  (** TuplePose.to_pose: canonical tuple form to geometry_msgs/Pose *)
  to_pose : pyval -> Pose;
  (** TuplePose.from_pose: geometry_msgs/Pose to canonical tuple form *)
  from_pose : Pose -> data;
  (** tf.transformations.quaternion_from_euler(roll, pitch, yaw) *)
  quaternion_from_euler : pyval -> pyval -> pyval -> pyval;
  (** the name Storage._add_generic_waypoint chooses for a pose *)
  generic_waypoint_name : gmap string data -> data -> string;
  (** Storage._get_custom_waypoint_name *)
  _get_custom_waypoint_name : gmap string data -> data -> option string;
  (** Storage._waypoints_to_str, the listing of the store *)
  _waypoints_to_str : gmap string data -> string;
  (** str(v), as interpolated by an f-string *)
  py_str : pyval -> string
}.

Definition MOVE_BASE_TOPIC_NAME : string := "move_base".

(** The error logged when the action client cannot connect. *)
Definition MOVE_BASE_MISSING : string := "Did you launch the move_base node?".

Definition newline : string := String (Ascii.ascii_of_nat 10) EmptyString.

(** [Storage.waypoints.values()] *)
Definition waypoint_values (ws : gmap string data) : list data :=
  (map_to_list ws).*2.

Section Base.
Context {ext : Externals}.

(** Modelled from the spec: Storage._add_generic_waypoint (robot_api/lib.py
    is not under src/).  addGeneric(pose) generates a name and stores the
    pose under it; that the generated name is not already in use is a
    hypothesis of the theorems that need it. *)
Definition _add_generic_waypoint (pose : data) : M unit :=
  modify (fun w => store_waypoint (generic_waypoint_name (waypoints w) pose) pose w).

(** Modelled from the spec: ActionlibComponent._connect (robot_api/lib.py is
    not under src/).  The navigation actor connection is lazily established
    on first use: an existing connection is reused, otherwise the server is
    contacted; connect(name) -> bool. *)
Definition _connect (name : string) : M bool := fun w =>
  if connected w then (Return true, w)
  else if server_up w then (Return true, set_connected true w)
  else (Return false, w).

(** [self._action_clients[...].send_goal_and_wait(goal, rospy.Duration(timeout))]:
    the client receives the call and returns the terminal result. *)
Definition send_goal_and_wait (goal : MoveBaseGoal) (timeout : float) : M retval := fun w =>
  (Return (client_result (SendGoalAndWait goal timeout)),
   record_sent (SendGoalAndWait goal timeout) w).

(** [self._action_clients[...].send_goal(goal, done_cb)]: the client
    receives the call and returns None. *)
Definition send_goal (goal : MoveBaseGoal) (done_cb : callback) : M retval := fun w =>
  (Return (client_result (SendGoal goal done_cb)), record_sent (SendGoal goal done_cb) w).

Definition waiting_message (timeout : float) : string :=
  "Waiting for navigation result with timeout of " +:+ py_str (VFloat timeout) +:+ " s ...".

Definition waypoint_missing_message (name listing : string) : string :=
  "Waypoint '" +:+ name +:+ "' does not exist. Available waypoints:" +:+ newline +:+ listing.

Definition no_waypoints_message (name : string) : string :=
  "No waypoints defined yet, so cannot use waypoint '" +:+ name +:+ "'.".

Definition sending_message (is_new_goal : bool) (custom_goal_name : option string)
    (pose : data) : string :=
  "Sending " +:+ (if is_new_goal then "new " else "") +:+ "navigation goal "
  +:+ match custom_goal_name with
      | Some n => if bool_decide (n = EmptyString) then "" else "'" +:+ n +:+ "' "
      | None => ""
      end
  +:+ py_str (value pose) +:+ " ...".

Definition move_to_goal (goal : pyval) (timeout : float) (done_cb : option callback)
    : M retval :=
  ok ← _connect MOVE_BASE_TOPIC_NAME;
  if negb ok then
    logerr MOVE_BASE_MISSING;; mret RNone
  else
    match goal with
    | VGoal g =>
        let pose := from_pose (target_pose g) in
        is_new_goal ← gets (fun w => negb (py_in pose (waypoint_values (waypoints w))));
        custom_goal_name ← gets (fun w => _get_custom_waypoint_name (waypoints w) pose);
        logdebug (sending_message is_new_goal custom_goal_name pose);;
        (if is_new_goal : bool then _add_generic_waypoint pose else (mret tt : M unit));;
        match done_cb with
        | None =>
            logdebug (waiting_message timeout);;
            send_goal_and_wait g timeout
        | Some cb => send_goal g cb
        end
    | _ => raise (Raw (AttributeError (no_attribute goal "target_pose")))
    end.

Definition move_to_pose (pose : Pose) (frame_id : string) (timeout : float)
    (done_cb : option callback) : M retval :=
  stamp ← gets ros_now;
  move_to_goal (VGoal (mkGoal frame_id stamp pose)) timeout done_cb.

Definition move_to_tuple_pose (pose : pyval) (frame_id : string) (timeout : float)
    (done_cb : option callback) : M retval :=
  move_to_pose (to_pose pose) frame_id timeout done_cb.

Definition move_to_position_and_orientation (position orientation : pyval)
    (frame_id : string) (timeout : float) (done_cb : option callback) : M retval :=
  move_to_pose (to_pose (VTuple [position; orientation])) frame_id timeout done_cb.

Definition move_to_coordinates (x y z roll pitch yaw : pyval) (frame_id : string)
    (timeout : float) (done_cb : option callback) : M retval :=
  move_to_pose (to_pose (VTuple [VTuple [x; y; z]; quaternion_from_euler roll pitch yaw]))
    frame_id timeout done_cb.

Definition move_to_waypoint (name : string) (frame_id : string) (timeout : float)
    (done_cb : option callback) : M retval :=
  found ← gets (fun w => waypoints w !! name);
  match found with
  | None =>
      nonempty ← gets (fun w => negb (bool_decide (waypoints w = ∅)));
      (if nonempty : bool then
         listing ← gets (fun w => _waypoints_to_str (waypoints w));
         logerr (waypoint_missing_message name listing)
       else
         logerr (no_waypoints_message name));;
      mret RNone
  | Some pose => move_to_pose (to_pose (value pose)) frame_id timeout done_cb
  end.

Definition kwargs_get (kwargs : gmap string pyval) (key : string) (default : pyval) : pyval :=
  match kwargs !! key with Some v => v | None => default end.

Definition msg_no_shape : string :=
  "1. Goal, 2. pose, 3. position and orientation, or 4. x, y, and yaw must be specified.".
Definition msg_both : string :=
  "Both 'position' and 'orientation' parameters must be specified.".

(** Lines 187-197 of [move]: each field is the keyword argument of that name
    if given, else the positional argument of the right type. *)
Definition goal_arg (args : list pyval) (kwargs : gmap string pyval) : pyval :=
  kwargs_get kwargs "goal" (_get_at args 0 (TClass CMoveBaseGoal)).
Definition pose_arg (args : list pyval) (kwargs : gmap string pyval) : pyval :=
  kwargs_get kwargs "pose" (_get_at args 0 TPoseLike).
Definition position_arg (args : list pyval) (kwargs : gmap string pyval) : pyval :=
  kwargs_get kwargs "position" (_get_at args 0 TSequence_float).
Definition orientation_arg (args : list pyval) (kwargs : gmap string pyval) : pyval :=
  kwargs_get kwargs "orientation" (_get_at args 1 TSequence_float).
Definition x_arg (args : list pyval) (kwargs : gmap string pyval) : pyval :=
  kwargs_get kwargs "x" (_get_at args 0 Tfloat).
Definition y_arg (args : list pyval) (kwargs : gmap string pyval) : pyval :=
  kwargs_get kwargs "y" (_get_at args 1 Tfloat).
Definition z_arg (args : list pyval) (kwargs : gmap string pyval) : pyval :=
  kwargs_get kwargs "z"
    (if bool_decide (3 < length args)%nat then _get_at args 2 Tfloat else VFloat 0).
Definition roll_arg (args : list pyval) (kwargs : gmap string pyval) : pyval :=
  kwargs_get kwargs "roll"
    (if bool_decide (4 <= length args)%nat then _get_at args 3 Tfloat else VFloat 0).
Definition pitch_arg (args : list pyval) (kwargs : gmap string pyval) : pyval :=
  kwargs_get kwargs "pitch"
    (if bool_decide (5 <= length args)%nat then _get_at args 4 Tfloat else VFloat 0).
Definition yaw_arg (args : list pyval) (kwargs : gmap string pyval) : pyval :=
  kwargs_get kwargs "yaw"
    (_get_at args (if bool_decide (6 <= length args)%nat then 5 else 2)%nat Tfloat).

Definition move (args : list pyval) (frame_id : string) (timeout : float)
    (done_cb : option callback) (kwargs : gmap string pyval) : M retval :=
  let goal := goal_arg args kwargs in
  let pose := pose_arg args kwargs in
  let position := position_arg args kwargs in
  let orientation := orientation_arg args kwargs in
  let x := x_arg args kwargs in
  let y := y_arg args kwargs in
  let z := z_arg args kwargs in
  let roll := roll_arg args kwargs in
  let pitch := pitch_arg args kwargs in
  let yaw := yaw_arg args kwargs in
  if is_None goal then
    if is_None pose then
      incomplete ← or_else (py_not position) (py_not orientation);
      if incomplete : bool then
        neither ← and_then (py_not position) (py_not orientation);
        if neither : bool then
          if is_None x || is_None y || is_None yaw then
            raise (Expect (ValueError msg_no_shape))
          else move_to_coordinates x y z roll pitch yaw frame_id timeout done_cb
        else
          (* Raise error if only one of position and orientation is specified. *)
          raise (Expect (ValueError msg_both))
      else move_to_position_and_orientation position orientation frame_id timeout done_cb
    else
      match pose with
      | VPose p => move_to_pose p frame_id timeout done_cb
      | _ => move_to_tuple_pose pose frame_id timeout done_cb
      end
  else move_to_goal goal timeout done_cb.

(** ** The resolution as the specification words it

    Four shapes in precedence order; a shape is present when all its
    required fields are. *)
Inductive shape := ShapeGoal | ShapePose | ShapePositionOrientation | ShapeCoordinates.

(** A position or an orientation is present when its truth test says so. *)
Definition present (v : pyval) : bool :=
  match truthy v with
  | Return b => b
  | Raise _ => false
  end.

Definition shape_present (args : list pyval) (kwargs : gmap string pyval) (s : shape) : bool :=
  match s with
  | ShapeGoal => negb (is_None (goal_arg args kwargs))
  | ShapePose => negb (is_None (pose_arg args kwargs))
  | ShapePositionOrientation =>
      present (position_arg args kwargs) && present (orientation_arg args kwargs)
  | ShapeCoordinates =>
      negb (is_None (x_arg args kwargs)) && negb (is_None (y_arg args kwargs))
      && negb (is_None (yaw_arg args kwargs))
  end.

Definition first_present_shape (args : list pyval) (kwargs : gmap string pyval) : option shape :=
  List.find (shape_present args kwargs)
    [ShapeGoal; ShapePose; ShapePositionOrientation; ShapeCoordinates].

Definition dispatch_shape (s : shape) (args : list pyval) (frame_id : string)
    (timeout : float) (done_cb : option callback) (kwargs : gmap string pyval) : M retval :=
  match s with
  | ShapeGoal => move_to_goal (goal_arg args kwargs) timeout done_cb
  | ShapePose =>
      match pose_arg args kwargs with
      | VPose p => move_to_pose p frame_id timeout done_cb
      | _ => move_to_tuple_pose (pose_arg args kwargs) frame_id timeout done_cb
      end
  | ShapePositionOrientation =>
      move_to_position_and_orientation (position_arg args kwargs)
        (orientation_arg args kwargs) frame_id timeout done_cb
  | ShapeCoordinates =>
      move_to_coordinates (x_arg args kwargs) (y_arg args kwargs) (z_arg args kwargs)
        (roll_arg args kwargs) (pitch_arg args kwargs) (yaw_arg args kwargs)
        frame_id timeout done_cb
  end.

(** "First shape whose required fields are all present wins"; with no shape
    present, resolution fails naming the four acceptable shapes. *)
Definition resolve_by_precedence (args : list pyval) (frame_id : string) (timeout : float)
    (done_cb : option callback) (kwargs : gmap string pyval) : M retval :=
  match first_present_shape args kwargs with
  | Some s => dispatch_shape s args frame_id timeout done_cb kwargs
  | None => raise (Expect (ValueError msg_no_shape))
  end.

(** Exactly one of position and orientation is present, with no goal and no
    pose. *)
Definition partial_pair (args : list pyval) (kwargs : gmap string pyval) : bool :=
  is_None (goal_arg args kwargs) && is_None (pose_arg args kwargs)
  && xorb (present (position_arg args kwargs)) (present (orientation_arg args kwargs)).

(** The exception of the first truth test that raises, when position and
    orientation are tested (no goal and no pose): position first, then
    orientation. *)
Definition truth_failure (args : list pyval) (kwargs : gmap string pyval) : option raised :=
  if is_None (goal_arg args kwargs) && is_None (pose_arg args kwargs) then
    match truthy (position_arg args kwargs), truthy (orientation_arg args kwargs) with
    | Raise r, _ => Some r
    | Return _, Raise r => Some r
    | Return _, Return _ => None
    end
  else None.

(** The goal a call on the action client carries. *)
Definition dispatched_goal (d : dispatch) : MoveBaseGoal :=
  match d with
  | SendGoalAndWait g _ => g
  | SendGoal g _ => g
  end.

(** [w'] is [w] with diagnostics appended and nothing else changed. *)
Definition only_logged (w w' : world) : Prop :=
  exists entries,
    w' = mkWorld (waypoints w) (connected w) (server_up w) (sent w) (history w)
           (log w ++ entries)
           (clock w) (ros_now w) (tf_calls w) (tf_service w) (namespace w).

(** The pose of a goal is known: some stored value equals it. *)
Definition known (g : MoveBaseGoal) (w : world) : bool :=
  py_in (from_pose (target_pose g)) (waypoint_values (waypoints w)).

(** The world in which the goal is handed to the action client: connected,
    the sending message logged, the pose registered if it is new. *)
Definition before_dispatch (g : MoveBaseGoal) (w : world) : world :=
  let pose := from_pose (target_pose g) in
  let is_new_goal := negb (known g w) in
  let w1 := record_log LogDebug
              (sending_message is_new_goal (_get_custom_waypoint_name (waypoints w) pose) pose)
              (set_connected true w) in
  if is_new_goal
  then store_waypoint (generic_waypoint_name (waypoints w) pose) pose w1
  else w1.

Definition dispatch_of (g : MoveBaseGoal) (timeout : float) (done_cb : option callback)
    : dispatch :=
  match done_cb with
  | None => SendGoalAndWait g timeout
  | Some cb => SendGoal g cb
  end.

End Base.

(** ** The pose query *)

(** [self._tf_listener.lookupTransform(reference_frame, robot_frame, rospy.Time(0))]:
    the next answer of the pose service; the clock advances by the time the
    answer took. *)
Definition lookupTransform (reference_frame robot_frame : string) : M pyval := fun w =>
  let r := tf_service w (tf_calls w) reference_frame robot_frame in
  let w' := advance_clock (took r) (count_tf_call w) in
  match result r with
  | TfPose pose => (Return pose, w')
  | TfRaise e => (Raise (Raw e), w')
  end.

(** [time.sleep(secs)]: the clock advances by exactly [secs]. *)
Definition sleep (secs : float) : M unit := modify (advance_clock secs).

(** How the while loop of [get_pose] is left. *)
Inductive loop_exit :=
| LoopReturned (pose : pyval)   (* [return pose] inside the loop *)
| LoopRaised (r : raised)       (* an exception the inner handler does not catch *)
| LoopEnded.                    (* the loop condition became false *)

(** The retry loop, lines 58-65.  The inner handler is
    [except tf.LookupException: pass].  [fuel] bounds the iterations; [None]
    is fuel running out while the loop condition still holds. *)
Fixpoint retry_loop (fuel : nat) (reference_frame robot_frame : string)
    (timeout time_start : float) (w : world) {struct fuel} : option (loop_exit * world) :=
  if bool_decide (clock w - time_start < timeout) then
    match fuel with
    | O => None
    | S fuel' =>
        match (sleep 1;; lookupTransform reference_frame robot_frame) w with
        | (Return pose, w') => Some (LoopReturned pose, w')
        | (Raise (Raw LookupException), w') =>
            retry_loop fuel' reference_frame robot_frame timeout time_start w'
        | (Raise r, w') => Some (LoopRaised r, w')
        end
    end
  else Some (LoopEnded, w).

(** The outer handler is [except (tf.LookupException, tf.ExtrapolationException)]. *)
Definition caught_by_outer_handler (e : exception) : bool :=
  match e with
  | LookupException | ExtrapolationException => true
  | _ => false
  end.

(** Every iteration sleeps one second, so the loop body runs at most
    ceiling(timeout) times when no answer takes negative time. *)
Definition retry_fuel (timeout : float) : nat := Z.to_nat (Qceiling timeout).

Definition get_pose (reference_frame robot_frame : string) (timeout : float) (w : world)
    : option (outcome pyval * world) :=
  match lookupTransform reference_frame (namespace w +:+ robot_frame) w with
  | (Return pose, w1) => Some (Return pose, w1)
  | (Raise (Raw e), w1) =>
      if caught_by_outer_handler e then
        if float_truthy timeout then
          let time_start := clock w1 in
          match retry_loop (retry_fuel timeout) reference_frame (namespace w +:+ robot_frame)
                  timeout time_start w1 with
          | Some (LoopReturned pose, w2) => Some (Return pose, w2)
          | Some (LoopRaised r, w2) => Some (Raise r, w2)
          | Some (LoopEnded, w2) => Some (Raise (Expect e), w2)
          | None => None
          end
        else Some (Raise (Expect e), w1)
      else Some (Raise (Raw e), w1)
  | (Raise r, w1) => Some (Raise r, w1)
  end.

(** [n] seconds, as a float. *)
Definition seconds (n : nat) : float := Q2Qc (inject_Z (Z.of_nat n)).

(** A pose service none of whose answers takes negative time. *)
Definition causal (w : world) : Prop :=
  forall n a b, 0 <= took (tf_service w n a b).

(** A pose service that answers every call at once with a lookup error. *)
Definition lookup_always_fails (w : world) : Prop :=
  forall n a b, tf_service w n a b = mkReply 0 (TfRaise LookupException).

(** [w'] is [w] up to the clock and the calls made on the pose service. *)
Definition pose_query_frame (w w' : world) : Prop :=
  waypoints w' = waypoints w /\ connected w' = connected w /\ server_up w' = server_up w
  /\ sent w' = sent w /\ history w' = history w /\ log w' = log w /\ ros_now w' = ros_now w
  /\ tf_service w' = tf_service w /\ namespace w' = namespace w.

(** ** Base.get_pose_name and Robot.__init__ *)

Definition XY_TOLERANCE : float := Q2Qc (2 # 10).
Definition YAW_TOLERANCE : float := Q2Qc (1 # 10).

Definition NO_POSES : string := "No poses given to compare to.".

Definition logwarn (msg : string) : M unit := modify (record_log LogWarn msg).

(** Base.get_pose_name, lines 78-85.  [matcher] is robot_api.lib.get_pose_name
    (robot_api/lib.py is not under src/), taken as a parameter; [poses] is
    the mapping to compare with, [Storage.waypoints] by default.  get_pose is
    called with its default frames. *)
Definition Base_get_pose_name
    (matcher : pyval -> gmap string pyval -> float -> float -> option string)
    (poses : gmap string pyval) (xy_tolerance yaw_tolerance timeout : float) (w : world)
    : option (outcome (option string) * world) :=
  if bool_decide (poses = ∅) then
    Some ((logwarn NO_POSES;; mret None) w)
  else
    match get_pose "map" "base_footprint" timeout w with
    | Some (Return pose, w') =>
        Some (Return (matcher pose poses xy_tolerance yaw_tolerance), w')
    | Some (Raise r, w') => Some (Raise r, w')
    | None => None
    end.

(** [s.startswith(prefix)] *)
Definition startswith (s prefix : string) : bool := String.prefix prefix s.

(** [s.endswith(suffix)]: [suffix] is [s] or ends the tail of [s]. *)
Fixpoint endswith (s suffix : string) : bool :=
  String.eqb s suffix
  || match s with
     | EmptyString => false
     | String _ s' => endswith s' suffix
     end.

(** Robot.__init__, lines 220-225: the namespace stored in [Robot.namespace]
    and handed to [Base]. *)
Definition Robot_init_namespace (namespace : string) : string :=
  let namespace := if negb (startswith namespace "/") then "/" +:+ namespace else namespace in
  if negb (endswith namespace "/") then namespace +:+ "/" else namespace.

(** ** A concrete interpretation of the collaborators

    Used to run the model on concrete calls.  The theorems below hold for
    every interpretation. *)

Definition float_of (v : pyval) : float :=
  match v with
  | VFloat f => f
  | VInt n => Q2Qc (inject_Z n)
  | _ => 0
  end.

(** [v[i]] of a sequence or an array, None where Python raises. *)
Definition item (v : pyval) (i : nat) : pyval :=
  match v with
  | VArray f l => default VNone (VFloat <$> (f :: l) !! i)
  | _ =>
      match sequence_elements v with
      | Some l => default VNone (l !! i)
      | None => VNone
      end
  end.

Definition sample_to_pose (pose : pyval) : Pose :=
  let p := item pose 0 in
  let q := item pose 1 in
  mkPose (mkPoint (float_of (item p 0)) (float_of (item p 1)) (float_of (item p 2)))
         (mkQuaternion (float_of (item q 0)) (float_of (item q 1)) (float_of (item q 2))
            (float_of (item q 3))).

Definition sample_from_pose (p : Pose) : data :=
  DTuple [DTuple [DFloat (pt_x (pose_position p)); DFloat (pt_y (pose_position p));
                  DFloat (pt_z (pose_position p))];
          DTuple [DFloat (q_x (pose_orientation p)); DFloat (q_y (pose_orientation p));
                  DFloat (q_z (pose_orientation p)); DFloat (q_w (pose_orientation p))]].

(** A stand-in for the trigonometry of tf, which rationals cannot express:
    the array of the identity rotation for zero angles, and otherwise an
    array that only records the three angles. *)
Definition sample_quaternion_from_euler (roll pitch yaw : pyval) : pyval :=
  if bool_decide (float_of roll = 0) && bool_decide (float_of pitch = 0)
     && bool_decide (float_of yaw = 0)
  then VArray 0 [0; 0; 1]
  else VArray (float_of roll) [float_of pitch; float_of yaw; 0].

Definition sample_externals : Externals := {|
  to_pose := sample_to_pose;
  from_pose := sample_from_pose;
  quaternion_from_euler := sample_quaternion_from_euler;
  generic_waypoint_name := fun ws _ => "generic" +:+ pretty (size ws);
  _get_custom_waypoint_name := fun _ _ => None;
  _waypoints_to_str := fun ws => String.concat ", " (map_to_list ws).*1;
  py_str := fun _ => "<value>"
|}.

(** A pose service that fails every call with [e], at once. *)
Definition failing_service (e : exception) : nat -> string -> string -> tf_reply :=
  fun _ _ _ => mkReply 0 (TfRaise e).

(** A fresh process: empty store, nothing connected or sent, clocks at 0. *)
Definition initial_world (server : bool) (service : nat -> string -> string -> tf_reply)
    : world :=
  mkWorld ∅ false server [] [] [] 0 0%Z 0 service "/".

(** A pose service whose first call fails with a lookup error and every
    later call with an extrapolation error. *)
Definition lookup_then_extrapolation : nat -> string -> string -> tf_reply :=
  fun n _ _ =>
    mkReply 0 (TfRaise match n with O => LookupException | S _ => ExtrapolationException end).

Definition world_with_server : world :=
  initial_world true (failing_service LookupException).
Definition world_without_server : world :=
  initial_world false (failing_service LookupException).

Definition sample_goal : MoveBaseGoal :=
  mkGoal "map" 0
    (mkPose (mkPoint 1 (Q2Qc 2) 0) (mkQuaternion 0 0 0 1)).

(** move([1.0, 2.0, 0.0], x=1.0, y=2.0, yaw=0.0): a position without an
    orientation, and all three coordinates. *)
Definition position_only_args : list pyval := [VList [VFloat 1; VFloat (Q2Qc 2); VFloat 0]].
Definition coordinate_kwargs : gmap string pyval :=
  <["x" := VFloat 1]> (<["y" := VFloat (Q2Qc 2)]> {["yaw" := VFloat 0]}).

(** A pose service whose first call fails with an extrapolation error and
    every later call with a lookup error. *)
Definition extrapolation_then_lookup : nat -> string -> string -> tf_reply :=
  fun n _ _ =>
    mkReply 0 (TfRaise match n with O => ExtrapolationException | S _ => LookupException end).

(** A pose service that fails twice with a lookup error and then finds
    [pose]. *)
Definition found_at_third_call (pose : pyval) : nat -> string -> string -> tf_reply :=
  fun n _ _ =>
    mkReply 0 match n with
              | O | S O => TfRaise LookupException
              | _ => TfPose pose
              end.

(** ((1.0, 2.0, 0.0), (0.0, 0.0, 0.0, 1.0)) *)
Definition sample_tuple_pose : pyval :=
  VTuple [VTuple [VFloat 1; VFloat (Q2Qc 2); VFloat 0];
          VTuple [VFloat 0; VFloat 0; VFloat 0; VFloat 1]].

(** The same pose as it is stored when written with integers:
    ((1, 2, 0), (0, 0, 0, 1)). *)
Definition home_pose : data :=
  DTuple [DTuple [DInt 1; DInt 2; DInt 0]; DTuple [DInt 0; DInt 0; DInt 0; DInt 1]].

(** A process whose store holds the waypoint "home". *)
Definition world_with_home : world :=
  mkWorld {["home" := home_pose]} false true [] [] [] 0 0%Z 0
    (failing_service LookupException) "/".

(** A numpy array of four floats, such as quaternion_from_euler returns. *)
Definition quaternion_array : pyval := VArray 0 [0; 0; 1].

(** move(position=[], x=1.0, y=2.0, yaw=0.0): an empty position, no
    orientation, and all three coordinates. *)
Definition empty_position_kwargs : gmap string pyval :=
  <["position" := VList []]> coordinate_kwargs.

(** * Theorems *)

Section Movement.
Context {ext : Externals}.

(** ** The guards of move_to_goal and move_to_waypoint *)

Lemma connect_unavailable (name : string) (w : world) :
  connected w = false -> server_up w = false -> _connect name w = (Return false, w).
Proof. intros Hc Hs. unfold _connect. by rewrite Hc, Hs. Qed.

Lemma world_eta (w : world) :
  mkWorld (waypoints w) (connected w) (server_up w) (sent w) (history w) (log w) (clock w)
    (ros_now w) (tf_calls w) (tf_service w) (namespace w) = w.
Proof. by destruct w. Qed.

Lemma connect_available (name : string) (w : world) :
  connected w || server_up w = true ->
  _connect name w = (Return true, set_connected true w).
Proof.
  intros H. unfold _connect, set_connected.
  destruct w as [ws [ | ] s]; simpl in *; [done | ]. by rewrite H.
Qed.

Lemma move_to_goal_unavailable (goal : pyval) (timeout : float) (done_cb : option callback)
    (w : world) :
  connected w = false -> server_up w = false ->
  move_to_goal goal timeout done_cb w = (Return RNone, record_log LogErr MOVE_BASE_MISSING w).
Proof.
  intros Hc Hs. unfold move_to_goal, mbind, M_bind.
  by rewrite (connect_unavailable _ _ Hc Hs).
Qed.

(** C7: when the connection to the navigation actor cannot be made, a
    movement dispatch (move_to_goal, and move_to_pose which every other
    movement method funnels into) logs one error, raises nothing and returns
    None. *)
Theorem navigation_unavailable_is_logged (timeout : float) (done_cb : option callback)
    (w : world) :
  connected w = false -> server_up w = false ->
  (forall goal,
     move_to_goal goal timeout done_cb w
     = (Return RNone, record_log LogErr MOVE_BASE_MISSING w))
  /\ (forall pose frame_id,
     move_to_pose pose frame_id timeout done_cb w
     = (Return RNone, record_log LogErr MOVE_BASE_MISSING w)).
Proof.
  intros Hc Hs. split.
  - intros goal. by apply move_to_goal_unavailable.
  - intros pose frame_id. unfold move_to_pose, mbind, M_bind, gets.
    by apply move_to_goal_unavailable.
Qed.

(** ** Python's equality on stored values *)

Lemma py_eq_all_refl (l : list data) :
  Forall (fun a => py_eq a a = true) l ->
  (fix all_eq (l k : list data) {struct l} : bool :=
     match l, k with
     | [] , [] => true
     | u :: l', v :: k' => py_eq u v && all_eq l' k'
     | _, _ => false
     end) l l = true.
Proof. induction 1 as [ | u l Hu _ IH]; [done | ]. by rewrite Hu, IH. Qed.

(** Without NaN, every stored value equals itself. *)
Lemma py_eq_refl (a : data) : py_eq a a = true.
Proof.
  induction a using data_ind; cbn; try done; try (by apply bool_decide_eq_true_2);
    by apply py_eq_all_refl.
Qed.

Lemma py_in_waypoint_values (ws : gmap string data) (pose : data) :
  py_in pose (waypoint_values ws) = true
  <-> exists k v, ws !! k = Some v /\ py_eq v pose = true.
Proof.
  unfold py_in, waypoint_values. rewrite existsb_exists. split.
  - intros (v & Hin & Heq). apply list_elem_of_In, list_elem_of_fmap in Hin.
    destruct Hin as ([k v'] & -> & Hkv). exists k, v'.
    split; [by apply elem_of_map_to_list | done].
  - intros (k & v & Hk & Heq). exists v. split; [ | done].
    apply list_elem_of_In, list_elem_of_fmap. exists (k, v).
    split; [done | by apply elem_of_map_to_list].
Qed.

Lemma py_in_waypoint_values_false (ws : gmap string data) (pose : data) :
  py_in pose (waypoint_values ws) = false
  <-> forall k v, ws !! k = Some v -> py_eq v pose = false.
Proof.
  split.
  - intros Hnot k v Hk. destruct (py_eq v pose) eqn:Heq; [ | done].
    assert (Hin : py_in pose (waypoint_values ws) = true)
      by (apply py_in_waypoint_values; by exists k, v).
    congruence.
  - intros Hall. destruct (py_in pose (waypoint_values ws)) eqn:Hin; [ | done].
    apply py_in_waypoint_values in Hin as (k & v & Hk & Heq).
    rewrite (Hall k v Hk) in Heq. done.
Qed.

(** ** move_to_goal with a connection *)

Lemma move_to_goal_connected (g : MoveBaseGoal) (timeout : float)
    (done_cb : option callback) (w : world) :
  connected w || server_up w = true ->
  move_to_goal (VGoal g) timeout done_cb w
  = (Return (client_result (dispatch_of g timeout done_cb)),
     record_sent (dispatch_of g timeout done_cb)
       match done_cb with
       | None => record_log LogDebug (waiting_message timeout) (before_dispatch g w)
       | Some _ => before_dispatch g w
       end).
Proof.
  intros H. unfold move_to_goal, mbind, M_bind.
  rewrite (connect_available _ _ H). cbn [negb].
  unfold gets, logdebug, modify, _add_generic_waypoint, before_dispatch, known, mret, M_ret.
  cbn [waypoints set_connected].
  destruct (py_in (from_pose (target_pose g)) (waypoint_values (waypoints w)));
    destruct done_cb; reflexivity.
Qed.

Lemma waypoints_before_dispatch_new (g : MoveBaseGoal) (w : world) :
  known g w = false ->
  waypoints (before_dispatch g w)
  = <[generic_waypoint_name (waypoints w) (from_pose (target_pose g))
      := from_pose (target_pose g)]> (waypoints w).
Proof. intros Hnew. unfold before_dispatch. by rewrite Hnew. Qed.

Lemma waypoints_before_dispatch_known (g : MoveBaseGoal) (w : world) :
  known g w = true -> waypoints (before_dispatch g w) = waypoints w.
Proof. intros Hin. unfold before_dispatch. by rewrite Hin. Qed.

Lemma history_before_dispatch (g : MoveBaseGoal) (w : world) :
  history (before_dispatch g w)
  = if known g w then history w
    else (history w
          ++ [Registered (generic_waypoint_name (waypoints w) (from_pose (target_pose g)))
                (from_pose (target_pose g))])%list.
Proof. unfold before_dispatch. by destruct (known g w). Qed.

Lemma sent_before_dispatch (g : MoveBaseGoal) (w : world) :
  sent (before_dispatch g w) = sent w.
Proof. unfold before_dispatch. by case_match. Qed.

Lemma known_before_dispatch (g : MoveBaseGoal) (w : world) :
  known g (before_dispatch g w) = true.
Proof.
  destruct (known g w) eqn:Hknown.
  - unfold known. by rewrite waypoints_before_dispatch_known.
  - unfold known. rewrite waypoints_before_dispatch_new by done.
    apply py_in_waypoint_values. eexists _, _.
    split; [apply lookup_insert_eq | apply py_eq_refl].
Qed.

Lemma move_to_goal_world (g : MoveBaseGoal) (timeout : float) (done_cb : option callback)
    (w : world) :
  connected w || server_up w = true ->
  waypoints (move_to_goal (VGoal g) timeout done_cb w).2 = waypoints (before_dispatch g w)
  /\ sent (move_to_goal (VGoal g) timeout done_cb w).2
     = (sent w ++ [dispatch_of g timeout done_cb])%list
  /\ connected (move_to_goal (VGoal g) timeout done_cb w).2 = true
  /\ history (move_to_goal (VGoal g) timeout done_cb w).2
     = (history (before_dispatch g w) ++ [Dispatched (dispatch_of g timeout done_cb)])%list.
Proof.
  intros H. rewrite (move_to_goal_connected _ _ _ _ H).
  unfold before_dispatch. destruct done_cb; repeat case_match; done.
Qed.

(** C3: with a connection, move_to_goal compares the pose of the goal with
    the stored values by Python's [==].  When no stored value equals it, the
    pose is stored under the generated name -- one new entry, the only one
    that equals the pose -- and only then is the goal handed to the action
    client; when a stored value equals it, the store is as before and the
    goal is handed over; dispatching the same goal again adds nothing. *)
Theorem move_to_goal_registers_once (g : MoveBaseGoal) (timeout : float)
    (done_cb : option callback) (w : world) :
  let pose := from_pose (target_pose g) in
  let name := generic_waypoint_name (waypoints w) pose in
  let d := dispatch_of g timeout done_cb in
  let w' := (move_to_goal (VGoal g) timeout done_cb w).2 in
  connected w || server_up w = true ->
  waypoints w !! name = None ->
  ((move_to_goal (VGoal g) timeout done_cb w).1 = Return (client_result d)
   /\ dispatched_goal d = g
   /\ sent w' = (sent w ++ [d])%list)
  /\ ((forall k v, waypoints w !! k = Some v -> py_eq v pose = false) ->
      waypoints w' = <[name := pose]> (waypoints w)
      /\ size (waypoints w') = S (size (waypoints w))
      /\ (forall k v, waypoints w' !! k = Some v -> py_eq v pose = true -> k = name)
      /\ history w' = (history w ++ [Registered name pose; Dispatched d])%list)
  /\ ((exists k v, waypoints w !! k = Some v /\ py_eq v pose = true) ->
      waypoints w' = waypoints w
      /\ history w' = (history w ++ [Dispatched d])%list)
  /\ waypoints (move_to_goal (VGoal g) timeout done_cb w').2 = waypoints w'.
Proof.
  intros pose name d w' Hconn Hfresh.
  destruct (move_to_goal_world g timeout done_cb w Hconn) as (Hws & Hsent & Hc & Hh).
  fold w' d in Hws, Hsent, Hc, Hh.
  split; [ | split; [ | split]].
  - split; [by rewrite (move_to_goal_connected _ _ _ _ Hconn) | ].
    split; [by destruct done_cb | done].
  - intros Hnew.
    assert (Hk : known g w = false) by by apply py_in_waypoint_values_false.
    rewrite Hh, history_before_dispatch, Hws, (waypoints_before_dispatch_new _ _ Hk), Hk.
    fold pose name.
    split; [done | ]. split; [by apply map_size_insert_None | ].
    split; [ | by rewrite <- app_assoc].
    intros k v Hv Heq. destruct (decide (name = k)) as [ | Hne]; [done | ].
    rewrite lookup_insert_ne in Hv by done. by rewrite (Hnew k v Hv) in Heq.
  - intros Hin.
    assert (Hk : known g w = true) by by apply py_in_waypoint_values.
    by rewrite Hh, history_before_dispatch, Hws, (waypoints_before_dispatch_known _ _ Hk), Hk.
  - assert (Hconn' : connected w' || server_up w' = true) by by rewrite Hc.
    destruct (move_to_goal_world g timeout done_cb w' Hconn') as (Hws' & _).
    rewrite Hws'. apply waypoints_before_dispatch_known.
    unfold known. rewrite Hws. apply known_before_dispatch.
Qed.

Lemma move_to_pose_dispatches (pose : Pose) (frame_id : string) (timeout : float)
    (done_cb : option callback) (w : world) :
  connected w || server_up w = true ->
  exists d,
    (move_to_pose pose frame_id timeout done_cb w).1 = Return (client_result d)
    /\ sent (move_to_pose pose frame_id timeout done_cb w).2 = (sent w ++ [d])%list
    /\ dispatched_goal d = mkGoal frame_id (ros_now w) pose.
Proof.
  intros H. exists (dispatch_of (mkGoal frame_id (ros_now w) pose) timeout done_cb).
  unfold move_to_pose, mbind, M_bind, gets.
  destruct (move_to_goal_world (mkGoal frame_id (ros_now w) pose) timeout done_cb w H)
    as (_ & Hsent & _).
  rewrite Hsent. rewrite (move_to_goal_connected _ _ _ _ H).
  by destruct done_cb.
Qed.

(** ** move_to_waypoint with an unknown name *)

Lemma move_to_waypoint_unknown (name frame_id : string) (timeout : float)
    (done_cb : option callback) (w : world) :
  waypoints w !! name = None ->
  move_to_waypoint name frame_id timeout done_cb w
  = (Return RNone,
     record_log LogErr
       (if bool_decide (waypoints w = ∅) then no_waypoints_message name
        else waypoint_missing_message name (_waypoints_to_str (waypoints w))) w).
Proof.
  intros Hname. unfold move_to_waypoint, mbind, M_bind, gets. rewrite Hname.
  destruct (bool_decide (waypoints w = ∅)); reflexivity.
Qed.

(** C6: move_to_waypoint with a name that is not in the store logs one error
    -- ending in the full listing of the store when the store is non-empty,
    the "No waypoints defined yet" message when it is empty -- returns None
    without raising, and hands nothing to the action client. *)
Theorem move_to_waypoint_not_found (name frame_id : string) (timeout : float)
    (done_cb : option callback) (w : world) :
  waypoints w !! name = None ->
  exists msg,
    move_to_waypoint name frame_id timeout done_cb w = (Return RNone, record_log LogErr msg w)
    /\ (waypoints w <> ∅ ->
        msg = "Waypoint '" +:+ name +:+ "' does not exist. Available waypoints:"
              +:+ newline +:+ _waypoints_to_str (waypoints w))
    /\ (waypoints w = ∅ ->
        msg = "No waypoints defined yet, so cannot use waypoint '" +:+ name +:+ "'.")
    /\ sent (move_to_waypoint name frame_id timeout done_cb w).2 = sent w.
Proof.
  intros Hname. rewrite (move_to_waypoint_unknown _ _ _ _ _ Hname).
  eexists. split; [reflexivity | ].
  split; [ | split]; [ | | done].
  - intros Hne. by rewrite bool_decide_eq_false_2.
  - intros Hempty. by rewrite bool_decide_eq_true_2.
Qed.

(** ** Goal resolution in move *)

(** The only exception a truth test raises is numpy's ValueError. *)
Lemma truthy_raises (v : pyval) (r : raised) :
  truthy v = Raise r -> r = Raw (ValueError AMBIGUOUS_TRUTH).
Proof. destruct v as [ | | | | | [ | ] | [ | ] | | | f [ | ] | ]; cbn; congruence. Qed.

Lemma truthy_None_false (v : pyval) : is_None v = true -> truthy v = Return false.
Proof. by destruct v. Qed.

Lemma move_unfold_precedence (args : list pyval) (frame_id : string)
    (timeout : float) (done_cb : option callback) (kwargs : gmap string pyval) (w : world) :
  move args frame_id timeout done_cb kwargs w
  = match truth_failure args kwargs with
    | Some r => (Raise r, w)
    | None =>
        if partial_pair args kwargs
        then (Raise (Expect (ValueError msg_both)), w)
        else resolve_by_precedence args frame_id timeout done_cb kwargs w
    end.
Proof.
  unfold move, truth_failure, partial_pair, resolve_by_precedence, first_present_shape,
    shape_present, present.
  cbn [List.find].
  destruct (is_None (goal_arg args kwargs)); cbn; [ | reflexivity].
  destruct (is_None (pose_arg args kwargs)); cbn; [ | reflexivity].
  unfold or_else, and_then, py_not, truth, mbind, M_bind, mret, M_ret.
  destruct (truthy (position_arg args kwargs)) as [[ | ] | r],
    (truthy (orientation_arg args kwargs)) as [[ | ] | r']; cbn; try reflexivity;
    destruct (is_None (x_arg args kwargs)), (is_None (y_arg args kwargs)),
      (is_None (yaw_arg args kwargs)); reflexivity.
Qed.

(** Every call of move fails in the resolution, leaving the world as it
    is, or is one call of move_to_goal in that world. *)
Lemma move_cases (args : list pyval) (frame_id : string) (timeout : float)
    (done_cb : option callback) (kwargs : gmap string pyval) (w : world) :
  (exists msg, (msg = msg_no_shape \/ msg = msg_both)
               /\ move args frame_id timeout done_cb kwargs w
                  = (Raise (Expect (ValueError msg)), w))
  \/ move args frame_id timeout done_cb kwargs w
     = (Raise (Raw (ValueError AMBIGUOUS_TRUTH)), w)
  \/ (exists goal, move args frame_id timeout done_cb kwargs w
                   = move_to_goal goal timeout done_cb w).
Proof.
  rewrite move_unfold_precedence.
  destruct (truth_failure args kwargs) as [r | ] eqn:Hfail.
  { right. left. unfold truth_failure in Hfail.
    destruct (_ && _); [ | done].
    destruct (truthy (position_arg args kwargs)) as [p | r1] eqn:Hp.
    - destruct (truthy (orientation_arg args kwargs)) as [o | r2] eqn:Ho; [done | ].
      injection Hfail as <-. by rewrite (truthy_raises _ _ Ho).
    - injection Hfail as <-. by rewrite (truthy_raises _ _ Hp). }
  destruct (partial_pair args kwargs).
  { left. exists msg_both. split; [by right | done]. }
  unfold resolve_by_precedence.
  destruct (first_present_shape args kwargs) as [[ | | | ] | ]; cbn [dispatch_shape].
  - right. right. by eexists.
  - right. right. destruct (pose_arg args kwargs); eexists; reflexivity.
  - right. right. eexists. reflexivity.
  - right. right. eexists. reflexivity.
  - left. exists msg_no_shape. split; [by left | done].
Qed.

(** ** Calls that end without a dispatch *)

Lemma only_logged_refl (w : world) : only_logged w w.
Proof. exists []. rewrite app_nil_r. by destruct w. Qed.

Lemma only_logged_record_log (level : loglevel) (msg : string) (w : world) :
  only_logged w (record_log level msg w).
Proof. by exists [(level, msg)]. Qed.

Lemma only_logged_frame (w w' : world) :
  only_logged w w' -> waypoints w' = waypoints w /\ sent w' = sent w.
Proof. by intros [entries ->]. Qed.

Lemma move_to_pose_unavailable (pose : Pose) (frame_id : string) (timeout : float)
    (done_cb : option callback) (w : world) :
  connected w = false -> server_up w = false ->
  move_to_pose pose frame_id timeout done_cb w
  = (Return RNone, record_log LogErr MOVE_BASE_MISSING w).
Proof.
  intros Hc Hs. unfold move_to_pose, mbind, M_bind, gets.
  by apply move_to_goal_unavailable.
Qed.

Lemma move_unavailable (args : list pyval) (frame_id : string) (timeout : float)
    (done_cb : option callback) (kwargs : gmap string pyval) (w : world) :
  connected w = false -> server_up w = false ->
  move args frame_id timeout done_cb kwargs w
    = (Return RNone, record_log LogErr MOVE_BASE_MISSING w)
  \/ exists r, move args frame_id timeout done_cb kwargs w = (Raise r, w).
Proof.
  intros Hc Hs.
  destruct (move_cases args frame_id timeout done_cb kwargs w)
    as [(msg & _ & ->) | [-> | (goal & ->)]].
  - right. by eexists.
  - right. by eexists.
  - left. by apply move_to_goal_unavailable.
Qed.

(** C8: a movement call that ends in the navigation-backend-missing
    condition (through move_to_goal, move or move_to_waypoint) or in the
    unknown-waypoint condition changes nothing but the diagnostics log: the
    waypoint store is as before and the action client received nothing. *)
Theorem failed_movement_has_no_effect (w : world) :
  (connected w = false -> server_up w = false ->
   (forall goal timeout done_cb,
      only_logged w (move_to_goal goal timeout done_cb w).2
      /\ waypoints (move_to_goal goal timeout done_cb w).2 = waypoints w
      /\ sent (move_to_goal goal timeout done_cb w).2 = sent w)
   /\ (forall args frame_id timeout done_cb kwargs,
      only_logged w (move args frame_id timeout done_cb kwargs w).2
      /\ waypoints (move args frame_id timeout done_cb kwargs w).2 = waypoints w
      /\ sent (move args frame_id timeout done_cb kwargs w).2 = sent w)
   /\ (forall name frame_id timeout done_cb,
      only_logged w (move_to_waypoint name frame_id timeout done_cb w).2
      /\ waypoints (move_to_waypoint name frame_id timeout done_cb w).2 = waypoints w
      /\ sent (move_to_waypoint name frame_id timeout done_cb w).2 = sent w))
  /\ (forall name frame_id timeout done_cb,
      waypoints w !! name = None ->
      only_logged w (move_to_waypoint name frame_id timeout done_cb w).2
      /\ waypoints (move_to_waypoint name frame_id timeout done_cb w).2 = waypoints w
      /\ sent (move_to_waypoint name frame_id timeout done_cb w).2 = sent w).
Proof.
  assert (Hframe : forall w', only_logged w w' ->
            only_logged w w' /\ waypoints w' = waypoints w /\ sent w' = sent w).
  { intros w' H. split; [done | by apply only_logged_frame]. }
  assert (Hunknown : forall name frame_id timeout done_cb,
            waypoints w !! name = None ->
            only_logged w (move_to_waypoint name frame_id timeout done_cb w).2).
  { intros name frame_id timeout done_cb Hname.
    rewrite (move_to_waypoint_unknown _ _ _ _ _ Hname). apply only_logged_record_log. }
  split.
  - intros Hc Hs. split; [ | split].
    + intros goal timeout done_cb. apply Hframe.
      rewrite (move_to_goal_unavailable _ _ _ _ Hc Hs). apply only_logged_record_log.
    + intros args frame_id timeout done_cb kwargs. apply Hframe.
      destruct (move_unavailable args frame_id timeout done_cb kwargs w Hc Hs)
        as [-> | [r ->]]; [apply only_logged_record_log | apply only_logged_refl].
    + intros name frame_id timeout done_cb. apply Hframe.
      destruct (waypoints w !! name) as [pose | ] eqn:Hname; [ | by apply Hunknown].
      unfold move_to_waypoint, mbind, M_bind, gets. rewrite Hname.
      rewrite (move_to_pose_unavailable _ _ _ _ _ Hc Hs). apply only_logged_record_log.
  - intros name frame_id timeout done_cb Hname. apply Hframe. by apply Hunknown.
Qed.

(** C1, as amended: move resolves by the precedence goal, pose, position
    with orientation, coordinates, and dispatches the first shape whose
    required fields are all present (failing with the four-shapes
    InvalidArguments error when none is) -- except that with no goal and no
    pose, a call supplying exactly one of position and orientation fails with
    InvalidArguments even when x, y and yaw are all present, and a position
    or orientation whose truth test raises (a numpy array of more than one
    element) ends the call with that ValueError, position being tested
    first. *)
Theorem move_resolves_by_precedence (args : list pyval) (frame_id : string)
    (timeout : float) (done_cb : option callback) (kwargs : gmap string pyval) (w : world) :
  move args frame_id timeout done_cb kwargs w
  = match truth_failure args kwargs with
    | Some r => (Raise r, w)
    | None =>
        if partial_pair args kwargs
        then (Raise (Expect (ValueError msg_both)), w)
        else resolve_by_precedence args frame_id timeout done_cb kwargs w
    end.
Proof. apply move_unfold_precedence. Qed.

(** C2, as amended: with no goal and no pose, (1) a call in which the truth
    tests of position and orientation succeed and exactly one of the two is
    a non-empty value fails with the InvalidArguments error "Both ..." and
    changes nothing, whatever coordinates it carries; (2) a call in which
    exactly one of the two is not None, the truth tests succeed and one of
    x, y, yaw is missing fails with an InvalidArguments error; (3) a call
    in which a truth test raises ends with that exception; (4) a call with
    only the keyword orientation fails for every value of it: with "Both
    ..." for a non-empty value, with the four-shapes error for None or an
    empty value, with numpy's ValueError for an array of more than one
    element.  In every case the world is unchanged: nothing is dispatched. *)
Theorem move_rejects_partial_pair (frame_id : string) (timeout : float)
    (done_cb : option callback) (w : world) :
  (forall args kwargs p o,
     goal_arg args kwargs = VNone ->
     pose_arg args kwargs = VNone ->
     truthy (position_arg args kwargs) = Return p ->
     truthy (orientation_arg args kwargs) = Return o ->
     p <> o ->
     move args frame_id timeout done_cb kwargs w = (Raise (Expect (ValueError msg_both)), w))
  /\ (forall args kwargs p o,
     goal_arg args kwargs = VNone ->
     pose_arg args kwargs = VNone ->
     truthy (position_arg args kwargs) = Return p ->
     truthy (orientation_arg args kwargs) = Return o ->
     is_None (position_arg args kwargs) <> is_None (orientation_arg args kwargs) ->
     is_None (x_arg args kwargs) || is_None (y_arg args kwargs)
       || is_None (yaw_arg args kwargs) = true ->
     exists msg,
       move args frame_id timeout done_cb kwargs w = (Raise (Expect (ValueError msg)), w))
  /\ (forall args kwargs r,
     goal_arg args kwargs = VNone ->
     pose_arg args kwargs = VNone ->
     truthy (position_arg args kwargs) = Raise r
     \/ (exists p, truthy (position_arg args kwargs) = Return p)
        /\ truthy (orientation_arg args kwargs) = Raise r ->
     move args frame_id timeout done_cb kwargs w = (Raise r, w))
  /\ (forall orientation,
     move [] frame_id timeout done_cb {[ "orientation" := orientation ]} w
     = match truthy orientation with
       | Return true => (Raise (Expect (ValueError msg_both)), w)
       | Return false => (Raise (Expect (ValueError msg_no_shape)), w)
       | Raise r => (Raise r, w)
       end).
Proof.
  split; [ | split; [ | split]].
  - intros args kwargs p o Hgoal Hpose Hp Ho Hone.
    rewrite move_unfold_precedence. unfold truth_failure, partial_pair, present.
    rewrite Hgoal, Hpose, Hp, Ho. cbn. by destruct p, o.
  - intros args kwargs p o Hgoal Hpose Hp Ho Hone Hxyz.
    rewrite move_unfold_precedence.
    unfold truth_failure, partial_pair, present, resolve_by_precedence, first_present_shape,
      shape_present, present.
    rewrite Hgoal, Hpose, Hp, Ho. cbn.
    destruct p, o; cbn; try (eexists; reflexivity).
    + exfalso. apply Hone.
      destruct (is_None (position_arg args kwargs)) eqn:Hnp;
        [apply truthy_None_false in Hnp; congruence | ].
      destruct (is_None (orientation_arg args kwargs)) eqn:Hno;
        [apply truthy_None_false in Hno; congruence | done].
    + apply orb_true_iff in Hxyz as [[Hx | Hy]%orb_true_iff | Hyaw];
        rewrite ?Hx, ?Hy, ?Hyaw, ?andb_false_r; cbn; eexists; reflexivity.
  - intros args kwargs r Hgoal Hpose Hr.
    rewrite move_unfold_precedence. unfold truth_failure. rewrite Hgoal, Hpose. cbn.
    destruct Hr as [-> | [[p ->] ->]]; done.
  - intros orientation. rewrite move_unfold_precedence.
    unfold truth_failure, partial_pair, present, resolve_by_precedence, first_present_shape,
      shape_present, present.
    replace (goal_arg [] {["orientation" := orientation]}) with VNone by reflexivity.
    replace (pose_arg [] {["orientation" := orientation]}) with VNone by reflexivity.
    replace (position_arg [] {["orientation" := orientation]}) with VNone by reflexivity.
    replace (orientation_arg [] {["orientation" := orientation]}) with orientation
      by reflexivity.
    replace (x_arg [] {["orientation" := orientation]}) with VNone by reflexivity.
    cbn. by destruct (truthy orientation) as [[ | ] | r].
Qed.

(** ** The coordinate shapes *)

Lemma move_to_coordinates_dispatches (x y z roll pitch yaw : pyval) (frame_id : string)
    (timeout : float) (done_cb : option callback) (w : world) :
  connected w || server_up w = true ->
  exists d,
    (move_to_coordinates x y z roll pitch yaw frame_id timeout done_cb w).1
      = Return (client_result d)
    /\ sent (move_to_coordinates x y z roll pitch yaw frame_id timeout done_cb w).2
       = (sent w ++ [d])%list
    /\ dispatched_goal d
       = mkGoal frame_id (ros_now w)
           (to_pose (VTuple [VTuple [x; y; z]; quaternion_from_euler roll pitch yaw])).
Proof. intros H. unfold move_to_coordinates. by apply move_to_pose_dispatches. Qed.

Lemma move_positional_floats (x y yaw : float) (frame_id : string) (timeout : float)
    (done_cb : option callback) (w : world) :
  move [VFloat x; VFloat y; VFloat yaw] frame_id timeout done_cb ∅ w
  = move_to_coordinates (VFloat x) (VFloat y) (VFloat 0) (VFloat 0) (VFloat 0) (VFloat yaw)
      frame_id timeout done_cb w.
Proof. reflexivity. Qed.

Lemma move_keyword_coordinates (x y yaw : pyval) (frame_id : string) (timeout : float)
    (done_cb : option callback) (w : world) :
  is_None x = false -> is_None y = false -> is_None yaw = false ->
  move [] frame_id timeout done_cb (<["x" := x]> (<["y" := y]> {["yaw" := yaw]})) w
  = move_to_coordinates x y (VFloat 0) (VFloat 0) (VFloat 0) yaw
      frame_id timeout done_cb w.
Proof.
  intros Hx Hy Hyaw. unfold move.
  set (kwargs := <["x" := x]> (<["y" := y]> {["yaw" := yaw]})).
  replace (goal_arg [] kwargs) with VNone by reflexivity.
  replace (pose_arg [] kwargs) with VNone by reflexivity.
  replace (position_arg [] kwargs) with VNone by reflexivity.
  replace (orientation_arg [] kwargs) with VNone by reflexivity.
  replace (x_arg [] kwargs) with x by reflexivity.
  replace (y_arg [] kwargs) with y by reflexivity.
  replace (z_arg [] kwargs) with (VFloat 0) by reflexivity.
  replace (roll_arg [] kwargs) with (VFloat 0) by reflexivity.
  replace (pitch_arg [] kwargs) with (VFloat 0) by reflexivity.
  replace (yaw_arg [] kwargs) with yaw by reflexivity.
  cbn. by rewrite Hx, Hy, Hyaw.
Qed.

(** C9: a call move(x, y, yaw) with three floats -- positionally or by the
    keywords x, y, yaw -- is move_to_coordinates with z, roll and pitch equal
    to 0.0, and with a connection the goal handed to the action client
    carries the pose built from position (x, y, 0.0) and the quaternion of
    the Euler angles (0.0, 0.0, yaw); the call returns what the client
    returns. *)
Theorem move_x_y_yaw (x y yaw : float) (frame_id : string) (timeout : float)
    (done_cb : option callback) (w : world) :
  let positional := move [VFloat x; VFloat y; VFloat yaw] frame_id timeout done_cb ∅ in
  let keyword :=
    move [] frame_id timeout done_cb
      (<["x" := VFloat x]> (<["y" := VFloat y]> {["yaw" := VFloat yaw]})) in
  let target :=
    to_pose (VTuple [VTuple [VFloat x; VFloat y; VFloat 0];
                     quaternion_from_euler (VFloat 0) (VFloat 0) (VFloat yaw)]) in
  connected w || server_up w = true ->
  keyword w = positional w
  /\ exists d,
       (positional w).1 = Return (client_result d)
       /\ sent (positional w).2 = (sent w ++ [d])%list
       /\ dispatched_goal d = mkGoal frame_id (ros_now w) target.
Proof.
  intros positional keyword target H. subst positional keyword target.
  rewrite move_positional_floats, move_keyword_coordinates by done.
  split; [done | ]. by apply move_to_coordinates_dispatches.
Qed.

(** C10: three integers passed positionally are not floats, so no shape is
    recognised and move fails with InvalidArguments; the same integers passed
    as the keywords x, y, yaw are taken as they are and dispatched. *)
Theorem move_integer_coordinates (a b c : Z) (frame_id : string) (timeout : float)
    (done_cb : option callback) (w : world) :
  let keyword :=
    move [] frame_id timeout done_cb
      (<["x" := VInt a]> (<["y" := VInt b]> {["yaw" := VInt c]})) in
  move [VInt a; VInt b; VInt c] frame_id timeout done_cb ∅ w
    = (Raise (Expect (ValueError msg_no_shape)), w)
  /\ keyword w
     = move_to_coordinates (VInt a) (VInt b) (VFloat 0) (VFloat 0) (VFloat 0) (VInt c)
         frame_id timeout done_cb w
  /\ (connected w || server_up w = true ->
      exists d,
        (keyword w).1 = Return (client_result d)
        /\ sent (keyword w).2 = (sent w ++ [d])%list
        /\ dispatched_goal d
           = mkGoal frame_id (ros_now w)
               (to_pose (VTuple [VTuple [VInt a; VInt b; VFloat 0];
                                 quaternion_from_euler (VFloat 0) (VFloat 0) (VInt c)]))).
Proof.
  intros keyword. subst keyword.
  split; [reflexivity | ].
  rewrite move_keyword_coordinates by done.
  split; [done | ]. intros H. by apply move_to_coordinates_dispatches.
Qed.

End Movement.

(** ** The pose query *)

Section PoseQuery.

Lemma this_plus (a b : Qc) : (this (a + b) == this a + this b)%Q.
Proof. apply Qred_correct. Qed.

Lemma this_minus (a b : Qc) : (this (a - b) == this a - this b)%Q.
Proof.
  unfold Qcminus, Qcplus, Qcopp, Q2Qc. cbn [this]. by rewrite !Qred_correct.
Qed.

Lemma this_Q2Qc (q : Q) : (this (Q2Qc q) == q)%Q.
Proof. apply Qred_correct. Qed.

(** Turn an order goal on [Qc] into one on [Q] over opaque atoms. *)
Ltac qc_order :=
  unfold Qclt, Qcle in *;
  repeat match goal with
         | H : context [this (_ + _)] |- _ => rewrite this_plus in H
         | H : context [this (_ - _)] |- _ => rewrite this_minus in H
         | H : context [this (Q2Qc _)] |- _ => rewrite this_Q2Qc in H
         | |- context [this (_ + _)] => rewrite this_plus
         | |- context [this (_ - _)] => rewrite this_minus
         | |- context [this (Q2Qc _)] => rewrite this_Q2Qc
         end;
  repeat match goal with
         | |- context [this ?x] =>
             let q := fresh "q" in set (q := this x) in *; clearbody q
         | H : context [this ?x] |- _ =>
             let q := fresh "q" in set (q := this x) in *; clearbody q
         end.

Ltac q_consts :=
  change (Z.of_nat 0) with 0%Z in *;
  change (Qred 0) with 0%Q in *; change (this 0) with 0%Q in *;
  change (this 1) with 1%Q in *;
  change (inject_Z 1) with 1%Q in *; change (inject_Z 0) with 0%Q in *.

Lemma Qceiling_positive (t : float) : 0 < t -> (0 < Qceiling t)%Z.
Proof.
  intros H. rewrite Zlt_Qlt. pose proof (Qle_ceiling t) as Hc.
  qc_order. q_consts. generalize dependent (inject_Z (Qceiling q)). intros. lra.
Qed.

Lemma retry_fuel_positive (timeout : float) :
  0 < timeout -> exists n, retry_fuel timeout = S n.
Proof.
  intros H. apply Qceiling_positive in H. unfold retry_fuel.
  exists (Z.to_nat (Qceiling timeout - 1)). lia.
Qed.

Lemma float_truthy_positive (timeout : float) : 0 < timeout -> float_truthy timeout = true.
Proof.
  intros H. unfold float_truthy. rewrite bool_decide_eq_false_2; [done | ].
  intros ->. by apply Qclt_not_eq in H.
Qed.

Lemma loop_entered (t timeout : float) :
  0 < timeout -> bool_decide (t - t < timeout) = true.
Proof. intros H. apply bool_decide_eq_true_2. by replace (t - t) with 0 by ring. Qed.

Lemma seconds_S (k : nat) : seconds (S k) = seconds k + 1.
Proof.
  apply Qc_is_canon. unfold seconds. rewrite this_plus, !this_Q2Qc.
  rewrite Nat2Z.inj_succ. unfold Z.succ. rewrite inject_Z_plus. reflexivity.
Qed.

Lemma seconds_retry_fuel (timeout : float) :
  timeout <= seconds (retry_fuel timeout).
Proof.
  unfold seconds, retry_fuel. pose proof (Qle_ceiling timeout) as Hc.
  assert (Hm : (Qceiling timeout <= Z.of_nat (Z.to_nat (Qceiling timeout)))%Z) by lia.
  rewrite Zle_Qle in Hm. qc_order.
  generalize dependent (inject_Z (Z.of_nat (Z.to_nat (Qceiling q)))).
  generalize dependent (inject_Z (Qceiling q)). intros. lra.
Qed.

Lemma retry_fuel_seconds_lt (timeout : float) :
  0 < timeout -> seconds (retry_fuel timeout) < timeout + 1.
Proof.
  intros Hpos. pose proof (Qceiling_positive _ Hpos) as Hc.
  pose proof (Qceiling_lt timeout) as Hlt.
  unfold seconds, retry_fuel. rewrite Z2Nat.id by lia.
  assert (Hs : (inject_Z (Qceiling timeout - 1) == inject_Z (Qceiling timeout) - 1)%Q).
  { unfold Z.sub. rewrite inject_Z_plus. reflexivity. }
  rewrite Hs in Hlt. qc_order. q_consts.
  generalize dependent (inject_Z (Qceiling q)). intros. lra.
Qed.

Lemma seconds_lt_timeout (timeout : float) (k : nat) :
  0 < timeout -> (k < retry_fuel timeout)%nat -> seconds k < timeout.
Proof.
  intros Hpos Hk. pose proof (Qceiling_positive _ Hpos) as Hc.
  pose proof (Qceiling_lt timeout) as Hlt.
  unfold retry_fuel in Hk.
  assert (Hz : (Z.of_nat k <= Qceiling timeout - 1)%Z) by lia.
  rewrite Zle_Qle in Hz. unfold seconds. qc_order.
  generalize dependent (inject_Z (Qceiling q - 1)).
  generalize dependent (inject_Z (Z.of_nat k)). intros. lra.
Qed.

(** *** The query always ends *)

Lemma retry_loop_total (fuel : nat) (reference_frame robot_frame : string)
    (timeout time_start : float) (w : world) :
  causal w ->
  timeout - (clock w - time_start) <= seconds fuel ->
  is_Some (retry_loop fuel reference_frame robot_frame timeout time_start w).
Proof.
  revert w. induction fuel as [ | fuel IH]; intros w Hcausal Hfuel; cbn [retry_loop].
  - case_bool_decide as Hguard; [ | done]. exfalso.
    unfold seconds in Hfuel. cbn in Hfuel. qc_order. q_consts. lra.
  - case_bool_decide as Hguard; [ | done].
    unfold mbind, M_bind, sleep, modify, lookupTransform. cbn.
    destruct (result _) as [pose | e] eqn:Hr; [done | ].
    destruct e; try done.
    apply IH; [done | ]. cbn.
    pose proof (Hcausal (tf_calls w) reference_frame robot_frame) as Htook.
    unfold seconds in *. rewrite Nat2Z.inj_succ in Hfuel. unfold Z.succ in Hfuel.
    qc_order. rewrite inject_Z_plus in Hfuel. q_consts.
    generalize dependent (inject_Z (Z.of_nat fuel)). intros. lra.
Qed.

(** With a causal pose service the bound on the iterations of the retry
    loop is never reached: get_pose returns or raises. *)
Lemma get_pose_total (reference_frame robot_frame : string) (timeout : float) (w : world) :
  causal w -> is_Some (get_pose reference_frame robot_frame timeout w).
Proof.
  intros Hcausal. unfold get_pose, lookupTransform.
  destruct (result _) as [pose | e]; [done | ].
  destruct (caught_by_outer_handler e); [ | done].
  destruct (float_truthy timeout); [ | done].
  match goal with
  | |- context [retry_loop ?f ?a ?b ?t ?s ?w1] =>
      destruct (retry_loop_total f a b t s w1) as [[[pose | r | ] w2] ->]; try done
  end.
  cbn. pose proof (seconds_retry_fuel timeout) as H.
  qc_order. lra.
Qed.

(** *** Lookup errors are retried until the timeout *)

Lemma retry_loop_lookup_failures (fuel k : nat) (reference_frame robot_frame : string)
    (timeout time_start : float) (w : world) :
  0 < timeout ->
  lookup_always_fails w ->
  clock w = time_start + seconds k ->
  (k + fuel)%nat = retry_fuel timeout ->
  exists w',
    retry_loop fuel reference_frame robot_frame timeout time_start w = Some (LoopEnded, w')
    /\ clock w' = time_start + seconds (retry_fuel timeout)
    /\ tf_calls w' = (tf_calls w + fuel)%nat
    /\ waypoints w' = waypoints w /\ sent w' = sent w /\ log w' = log w.
Proof.
  intros Hpos. revert k w.
  induction fuel as [ | fuel IH]; intros k w Hfail Hclock Hk; cbn [retry_loop].
  - rewrite Nat.add_0_r in Hk. subst k.
    rewrite bool_decide_eq_false_2.
    + exists w. rewrite Nat.add_0_r. done.
    + rewrite Hclock. pose proof (seconds_retry_fuel timeout) as Hle.
      intros Hlt. qc_order. lra.
  - rewrite bool_decide_eq_true_2.
    + unfold mbind, M_bind, sleep, modify, lookupTransform. cbn.
      rewrite Hfail. cbn.
      match goal with
      | |- context [retry_loop _ _ _ _ _ ?w1] =>
          assert (Hclock1 : clock w1 = time_start + seconds (S k))
            by (cbn [clock advance_clock count_tf_call]; rewrite Hclock, seconds_S; ring);
          destruct (IH (S k) w1 Hfail Hclock1 ltac:(lia)) as (w' & -> & Hc' & Hn' & Hrest)
      end.
      exists w'. cbn in Hn'. split; [done | ]. split; [done | ]. split; [lia | done].
    + rewrite Hclock.
      assert (Hlt : seconds k < timeout) by (apply seconds_lt_timeout; [done | lia]).
      qc_order. lra.
Qed.

(** With a lookup error on every call and a positive timeout, the query
    makes the initial attempt, retries once per second, ceiling(timeout)
    times, and then fails with PoseUnavailable carrying the first error:
    between [timeout] and [timeout + 1] seconds after the first failure. *)
Lemma get_pose_lookup_failures (reference_frame robot_frame : string) (timeout : float)
    (w : world) :
  0 < timeout ->
  lookup_always_fails w ->
  exists w',
    get_pose reference_frame robot_frame timeout w
      = Some (Raise (Expect LookupException), w')
    /\ clock w' = clock w + seconds (retry_fuel timeout)
    /\ timeout <= clock w' - clock w
    /\ clock w' - clock w < timeout + 1
    /\ tf_calls w' = S (tf_calls w + retry_fuel timeout).
Proof.
  intros Hpos Hfail. unfold get_pose, lookupTransform. rewrite Hfail. cbn [result took].
  cbn [caught_by_outer_handler]. rewrite (float_truthy_positive _ Hpos).
  match goal with
  | |- context [retry_loop ?f ?a ?b ?t ?s ?w1] =>
      destruct (retry_loop_lookup_failures f 0 a b t s w1 Hpos)
        as (w' & -> & Hc & Hn & _)
  end.
  - done.
  - unfold seconds. cbn. apply Qc_is_canon. cbn. rewrite !Qred_correct. ring.
  - done.
  - exists w'. split; [done | ]. cbn in Hc, Hn.
    assert (Hclock : clock w' = clock w + seconds (retry_fuel timeout)).
    { rewrite Hc. ring. }
    split; [done | ]. rewrite Hclock.
    pose proof (seconds_retry_fuel timeout) as Hle.
    pose proof (retry_fuel_seconds_lt timeout Hpos) as Hlt.
    split; [ | split]; [ | | lia].
    + qc_order. lra.
    + qc_order. lra.
Qed.

(** With timeout 0 the first failure is surfaced at once, wrapped. *)
Lemma get_pose_no_timeout (reference_frame robot_frame : string) (e : exception) (w : world) :
  caught_by_outer_handler e = true ->
  result (tf_service w (tf_calls w) reference_frame (namespace w +:+ robot_frame))
    = TfRaise e ->
  exists w',
    get_pose reference_frame robot_frame 0 w = Some (Raise (Expect e), w')
    /\ tf_calls w' = S (tf_calls w).
Proof.
  intros He H1. unfold get_pose, lookupTransform. rewrite H1, He. cbn.
  eexists. split; reflexivity.
Qed.

(** *** Extrapolation errors inside the retry loop *)

(** C4 (the code departs from the claim): against a pose service failing
    every call with an extrapolation error, get_pose with timeout 2 makes the
    initial attempt and one retry, and that retry's error leaves the loop
    unwrapped after one second -- not PoseUnavailable after two. *)
Theorem get_pose_extrapolating_service :
  exists w',
    get_pose "map" "base_footprint" (Q2Qc 2)
      (initial_world true (failing_service ExtrapolationException))
    = Some (Raise (Raw ExtrapolationException), w')
    /\ clock w' = 1
    /\ tf_calls w' = 2%nat.
Proof. eexists. split; [reflexivity | ]. split; reflexivity. Qed.

(** C5 (the code departs from the claim): with a positive timeout, after a
    first attempt that failed with a lookup or an extrapolation error, an
    extrapolation error raised by the first retry is not caught by the
    handler of the loop (which names LookupException only): get_pose ends
    with that raw exception, not with PoseUnavailable. *)
Theorem get_pose_retry_extrapolation_escapes (reference_frame robot_frame : string)
    (timeout : float) (e : exception) (w : world) :
  0 < timeout ->
  caught_by_outer_handler e = true ->
  result (tf_service w (tf_calls w) reference_frame (namespace w +:+ robot_frame))
    = TfRaise e ->
  result (tf_service w (S (tf_calls w)) reference_frame (namespace w +:+ robot_frame))
    = TfRaise ExtrapolationException ->
  exists w',
    get_pose reference_frame robot_frame timeout w
      = Some (Raise (Raw ExtrapolationException), w')
    /\ tf_calls w' = S (S (tf_calls w)).
Proof.
  intros Hpos He H1 H2. unfold get_pose, lookupTransform. rewrite H1, He.
  rewrite (float_truthy_positive _ Hpos).
  destruct (retry_fuel_positive _ Hpos) as [n ->]. cbn [retry_loop].
  rewrite (loop_entered _ _ Hpos).
  unfold mbind, M_bind, sleep, modify, lookupTransform. cbn. rewrite H2.
  eexists. split; reflexivity.
Qed.

(** *** Further properties of the pose query *)

Lemma seconds_le (j n : nat) : (j <= n)%nat -> seconds j <= seconds n.
Proof.
  intros H. assert (Hz : (Z.of_nat j <= Z.of_nat n)%Z) by lia.
  rewrite Zle_Qle in Hz. unfold seconds. qc_order.
  generalize dependent (inject_Z (Z.of_nat j)).
  generalize dependent (inject_Z (Z.of_nat n)). intros. lra.
Qed.

Lemma seconds_lt_inv (j n : nat) : seconds j < seconds n -> (j < n)%nat.
Proof.
  intros H. destruct (Nat.lt_ge_cases j n) as [ | Hge]; [done | ].
  apply seconds_le in Hge. qc_order. lra.
Qed.

Lemma retry_loop_frame (fuel : nat) (reference_frame robot_frame : string)
    (timeout time_start : float) (w w' : world) (x : loop_exit) :
  retry_loop fuel reference_frame robot_frame timeout time_start w = Some (x, w') ->
  pose_query_frame w w'
  /\ (tf_calls w <= tf_calls w')%nat
  /\ (tf_calls w' <= tf_calls w + fuel)%nat.
Proof.
  revert w. induction fuel as [ | fuel IH]; intros w; cbn [retry_loop].
  - case_bool_decide; [done | ]. intros [= <- <-].
    split; [by repeat split | lia].
  - case_bool_decide; [ | intros [= <- <-]; split; [by repeat split | lia]].
    unfold mbind, M_bind, sleep, modify, lookupTransform. cbn.
    destruct (result _) as [pose | e].
    + intros [= <- <-]. cbn. split; [by repeat split | lia].
    + destruct e; try (intros [= <- <-]; cbn; split; [by repeat split | lia]).
      intros Hloop. apply IH in Hloop as (Hf & Hlo & Hhi). cbn in *.
      split; [done | lia].
Qed.

(** X17: only a lookup or extrapolation error of the first attempt starts
    the retries: a pose found by the first attempt is returned, and any
    other exception propagates as raised, after exactly one lookup and
    without sleeping, whatever the timeout. *)
Theorem get_pose_first_attempt_decides (reference_frame robot_frame : string)
    (timeout : float) (w : world) :
  let r := tf_service w (tf_calls w) reference_frame (namespace w +:+ robot_frame) in
  let w1 := advance_clock (took r) (count_tf_call w) in
  (forall pose, result r = TfPose pose ->
     get_pose reference_frame robot_frame timeout w = Some (Return pose, w1))
  /\ (forall e, result r = TfRaise e -> caught_by_outer_handler e = false ->
     get_pose reference_frame robot_frame timeout w = Some (Raise (Raw e), w1)).
Proof.
  intros r w1. subst r w1. unfold get_pose, lookupTransform. split.
  - intros pose ->. done.
  - intros e -> ->. done.
Qed.

(** X18: with a pose service whose answers take no negative time, get_pose
    ends, having made at least one and at most 1 + ceiling(timeout) lookups,
    and touches nothing but the clock and the pose service: the waypoint
    store, the connection, the goals sent and the log are as before. *)
Theorem get_pose_terminates (reference_frame robot_frame : string) (timeout : float)
    (w : world) :
  causal w ->
  exists o w',
    get_pose reference_frame robot_frame timeout w = Some (o, w')
    /\ (tf_calls w < tf_calls w')%nat
    /\ (tf_calls w' <= S (tf_calls w + retry_fuel timeout))%nat
    /\ pose_query_frame w w'.
Proof.
  intros Hcausal.
  destruct (get_pose_total reference_frame robot_frame timeout w Hcausal) as [[o w'] H].
  exists o, w'. split; [done | ]. revert H. unfold get_pose, lookupTransform.
  destruct (result _) as [pose | e].
  { intros [= <- <-]. cbn. split; [lia | ]. split; [lia | by repeat split]. }
  destruct (caught_by_outer_handler e);
    [ | intros [= <- <-]; cbn; split; [lia | ]; split; [lia | by repeat split]].
  destruct (float_truthy timeout);
    [ | intros [= <- <-]; cbn; split; [lia | ]; split; [lia | by repeat split]].
  destruct (retry_loop _ _ _ _ _ _) as [[x w2] | ] eqn:Hloop; [ | done].
  apply retry_loop_frame in Hloop as (Hf & Hlo & Hhi). cbn in Hf, Hlo, Hhi.
  intros H. assert (w' = w2) as -> by (destruct x; congruence).
  split; [lia | ]. split; [lia | ]. exact Hf.
Qed.

Lemma retry_loop_exhausts (fuel k : nat) (reference_frame robot_frame : string)
    (timeout time_start : float) (w : world) :
  0 < timeout ->
  (forall n a b, (tf_calls w <= n)%nat ->
                 tf_service w n a b = mkReply 0 (TfRaise LookupException)) ->
  clock w = time_start + seconds k ->
  (k + fuel)%nat = retry_fuel timeout ->
  exists w',
    retry_loop fuel reference_frame robot_frame timeout time_start w = Some (LoopEnded, w')
    /\ clock w' = time_start + seconds (retry_fuel timeout)
    /\ tf_calls w' = (tf_calls w + fuel)%nat.
Proof.
  intros Hpos. revert k w.
  induction fuel as [ | fuel IH]; intros k w Hfail Hclock Hk; cbn [retry_loop].
  - rewrite Nat.add_0_r in Hk. subst k.
    rewrite bool_decide_eq_false_2.
    + exists w. rewrite Nat.add_0_r. done.
    + rewrite Hclock. pose proof (seconds_retry_fuel timeout) as Hle.
      intros Hlt. qc_order. lra.
  - rewrite bool_decide_eq_true_2.
    + unfold mbind, M_bind, sleep, modify, lookupTransform. cbn.
      rewrite Hfail by done. cbn.
      match goal with
      | |- context [retry_loop _ _ _ _ _ ?w1] =>
          assert (Hclock1 : clock w1 = time_start + seconds (S k))
            by (cbn [clock advance_clock count_tf_call]; rewrite Hclock, seconds_S; ring);
          assert (Hfail1 : forall n a b, (tf_calls w1 <= n)%nat ->
                     tf_service w1 n a b = mkReply 0 (TfRaise LookupException))
            by (intros n a b Hn; cbn in *; apply Hfail; lia);
          destruct (IH (S k) w1 Hfail1 Hclock1 ltac:(lia)) as (w' & -> & Hc' & Hn')
      end.
      exists w'. cbn in Hn'. split; [done | ]. split; [done | lia].
    + rewrite Hclock.
      assert (Hlt : seconds k < timeout) by (apply seconds_lt_timeout; [done | lia]).
      qc_order. lra.
Qed.

(** X19: when the first attempt fails with a lookup or extrapolation error
    and every retry with a lookup error (answered at once), get_pose with a
    positive timeout retries once per second, ceiling(timeout) times, and then
    fails with PoseUnavailable carrying the error of the first attempt: the
    retries take at least [timeout] and less than [timeout + 1] seconds. *)
Theorem get_pose_exhausts (reference_frame robot_frame : string) (timeout : float)
    (e : exception) (w : world) :
  let r := tf_service w (tf_calls w) reference_frame (namespace w +:+ robot_frame) in
  0 < timeout ->
  caught_by_outer_handler e = true ->
  result r = TfRaise e ->
  (forall n a b, (tf_calls w < n)%nat ->
                 tf_service w n a b = mkReply 0 (TfRaise LookupException)) ->
  exists w',
    get_pose reference_frame robot_frame timeout w = Some (Raise (Expect e), w')
    /\ clock w' = clock w + took r + seconds (retry_fuel timeout)
    /\ timeout <= seconds (retry_fuel timeout)
    /\ seconds (retry_fuel timeout) < timeout + 1
    /\ tf_calls w' = S (tf_calls w + retry_fuel timeout).
Proof.
  intros r Hpos He Hr Hfail. subst r. unfold get_pose, lookupTransform.
  rewrite Hr, He, (float_truthy_positive _ Hpos).
  match goal with
  | |- context [retry_loop ?f ?a ?b ?t ?s ?w1] =>
      destruct (retry_loop_exhausts f 0 a b t s w1 Hpos) as (w' & -> & Hc & Hn)
  end.
  - intros n a b Hn. cbn in Hn. apply Hfail. lia.
  - unfold seconds. cbn. apply Qc_is_canon. cbn. rewrite !Qred_correct. ring.
  - done.
  - exists w'. split; [done | ]. cbn in Hc, Hn. split; [by rewrite Hc | ].
    split; [apply seconds_retry_fuel | ]. split; [by apply retry_fuel_seconds_lt | lia].
Qed.

(** X20: a timeout of zero or below disables the retries: a lookup or
    extrapolation error of the only attempt is wrapped into PoseUnavailable
    at once, without sleeping. *)
Theorem get_pose_without_retries (reference_frame robot_frame : string) (timeout : float)
    (e : exception) (w : world) :
  let r := tf_service w (tf_calls w) reference_frame (namespace w +:+ robot_frame) in
  timeout <= 0 ->
  caught_by_outer_handler e = true ->
  result r = TfRaise e ->
  get_pose reference_frame robot_frame timeout w
  = Some (Raise (Expect e), advance_clock (took r) (count_tf_call w)).
Proof.
  intros r Hneg He Hr. subst r. unfold get_pose, lookupTransform. rewrite Hr, He.
  destruct (float_truthy timeout); [ | done].
  assert (Hguard : forall fuel w1,
            retry_loop fuel reference_frame (namespace w +:+ robot_frame) timeout
              (clock w1) w1 = Some (LoopEnded, w1)).
  { intros fuel w1. destruct fuel; cbn [retry_loop];
      (rewrite bool_decide_eq_false_2; [done | ]);
      replace (clock w1 - clock w1) with 0 by ring;
      intros Hlt; qc_order; q_consts; lra. }
  by rewrite Hguard.
Qed.

Lemma retry_loop_succeeds (k j n base fuel : nat) (reference_frame robot_frame : string)
    (timeout time_start : float) (pose : pyval) (w : world) :
  (forall i, (i < n)%nat ->
     tf_service w (base + i) reference_frame robot_frame
     = mkReply 0 (TfRaise LookupException)) ->
  tf_service w (base + n) reference_frame robot_frame = mkReply 0 (TfPose pose) ->
  seconds n < timeout ->
  (j + k)%nat = n ->
  (k < fuel)%nat ->
  tf_calls w = (base + j)%nat ->
  clock w = time_start + seconds j ->
  exists w',
    retry_loop fuel reference_frame robot_frame timeout time_start w
      = Some (LoopReturned pose, w')
    /\ clock w' = time_start + seconds (S n)
    /\ tf_calls w' = S (base + n).
Proof.
  intros Hfail Hpose Hlt. revert j fuel w Hfail Hpose.
  induction k as [ | k IH]; intros j fuel w Hfail Hpose Hj Hfuel Hcalls Hclock;
    (destruct fuel as [ | fuel]; [lia | ]); cbn [retry_loop];
    (rewrite bool_decide_eq_true_2;
     [ | rewrite Hclock;
         assert (Hle : seconds j <= seconds n) by (apply seconds_le; lia);
         qc_order; lra]);
    unfold mbind, M_bind, sleep, modify, lookupTransform; cbn; rewrite Hcalls.
  - rewrite Nat.add_0_r in Hj. subst j. rewrite Hpose. cbn.
    eexists. split; [reflexivity | ]. cbn. split; [ | lia].
    rewrite Hclock, seconds_S. ring.
  - rewrite Hfail by lia. cbn.
    match goal with
    | |- context [retry_loop _ _ _ _ _ ?w1] =>
        destruct (IH (S j) fuel w1) as (w' & -> & Hc & Hn)
    end; try done; try lia.
    + cbn. lia.
    + cbn. rewrite Hclock, seconds_S. ring.
    + by exists w'.
Qed.

(** X21: the first successful retry ends the query: after a first attempt
    failing with a lookup or extrapolation error and [n] retries failing
    with a lookup error, a retry that finds the pose returns it, [n + 1]
    seconds after the first failure (with answers given at once), provided
    [n] seconds is still less than [timeout]. *)
Theorem get_pose_retry_succeeds (reference_frame robot_frame : string) (timeout : float)
    (e : exception) (pose : pyval) (n : nat) (w : world) :
  let frame := namespace w +:+ robot_frame in
  let r := tf_service w (tf_calls w) reference_frame frame in
  caught_by_outer_handler e = true ->
  result r = TfRaise e ->
  (forall i, (i < n)%nat ->
     tf_service w (S (tf_calls w) + i) reference_frame frame
     = mkReply 0 (TfRaise LookupException)) ->
  tf_service w (S (tf_calls w) + n) reference_frame frame = mkReply 0 (TfPose pose) ->
  seconds n < timeout ->
  exists w',
    get_pose reference_frame robot_frame timeout w = Some (Return pose, w')
    /\ clock w' = clock w + took r + seconds (S n)
    /\ tf_calls w' = (tf_calls w + n + 2)%nat.
Proof.
  intros frame r He Hr Hfail Hpose Hlt. subst frame r.
  assert (Hpos : 0 < timeout).
  { assert (Hle : seconds 0 <= seconds n) by (apply seconds_le; lia).
    unfold seconds in Hle at 1. cbn in Hle. qc_order. q_consts. lra. }
  unfold get_pose, lookupTransform. rewrite Hr, He, (float_truthy_positive _ Hpos).
  match goal with
  | |- context [retry_loop ?f ?a ?b ?t ?s ?w1] =>
      destruct (retry_loop_succeeds n 0 n (S (tf_calls w)) f a b t s pose w1)
        as (w' & -> & Hc & Hn)
  end; try done.
  - apply seconds_lt_inv. pose proof (seconds_retry_fuel timeout) as Hle.
    clear - Hlt Hle. qc_order. lra.
  - unfold seconds. cbn. apply Qc_is_canon. cbn. rewrite !Qred_correct. ring.
  - exists w'. split; [done | ]. cbn in Hc. split; [by rewrite Hc | lia].
Qed.

(** *** Base.get_pose_name *)

(** X22: with no poses to compare with, get_pose_name logs a warning and
    returns None without asking the pose service -- whatever state that
    service is in. *)
Theorem get_pose_name_without_poses
    (matcher : pyval -> gmap string pyval -> float -> float -> option string)
    (xy_tolerance yaw_tolerance timeout : float) (w : world) :
  exists w',
    Base_get_pose_name matcher ∅ xy_tolerance yaw_tolerance timeout w = Some (Return None, w')
    /\ log w' = (log w ++ [(LogWarn, NO_POSES)])%list
    /\ tf_calls w' = tf_calls w
    /\ clock w' = clock w.
Proof. eexists. split; [reflexivity | ]. done. Qed.

(** X23: with poses to compare with, get_pose_name is only as available as
    the pose: when every lookup fails with a lookup error and the timeout
    is positive it raises PoseUnavailable, whatever the matcher would
    answer. *)
Theorem get_pose_name_needs_pose
    (matcher : pyval -> gmap string pyval -> float -> float -> option string)
    (poses : gmap string pyval) (xy_tolerance yaw_tolerance timeout : float) (w : world) :
  poses <> ∅ ->
  0 < timeout ->
  lookup_always_fails w ->
  exists w',
    Base_get_pose_name matcher poses xy_tolerance yaw_tolerance timeout w
    = Some (Raise (Expect LookupException), w').
Proof.
  intros Hposes Hpos Hfail. unfold Base_get_pose_name.
  rewrite bool_decide_eq_false_2 by done.
  destruct (get_pose_lookup_failures "map" "base_footprint" timeout w Hpos Hfail)
    as (w' & -> & _). by exists w'.
Qed.

End PoseQuery.

(** ** The theorems at concrete calls *)

Section Instances.
#[local] Existing Instance sample_externals.

(** C1 as stated fails: move([1.0, 2.0, 0.0], x=1.0, y=2.0, yaw=0.0) has no
    goal, no pose and no orientation, and all of x, y, yaw: the first shape
    whose required fields are all present is the coordinate shape, yet the
    call fails with InvalidArguments instead of dispatching it. *)
Lemma move_precedence_counterexample :
  first_present_shape position_only_args coordinate_kwargs = Some ShapeCoordinates
  /\ move position_only_args "map" (Q2Qc 60) None coordinate_kwargs world_with_server
     = (Raise (Expect (ValueError msg_both)), world_with_server)
  /\ move position_only_args "map" (Q2Qc 60) None coordinate_kwargs world_with_server
     <> resolve_by_precedence position_only_args "map" (Q2Qc 60) None coordinate_kwargs
          world_with_server.
Proof.
  split; [reflexivity | ]. split; [reflexivity | ].
  intros H. apply (f_equal fst) in H. vm_compute in H. discriminate H.
Qed.

(** C2 as stated fails, twice.  move(position=[], x=1.0, y=2.0, yaw=0.0)
    supplies a position and no orientation, no goal and no pose, and is
    dispatched as the coordinate shape: an empty position counts as absent.
    And move(orientation=a) with only the orientation set to a numpy array
    of four floats ends with numpy's ValueError, which is not the
    InvalidArguments error. *)
Lemma move_partial_pair_counterexample :
  (goal_arg [] empty_position_kwargs = VNone
   /\ pose_arg [] empty_position_kwargs = VNone
   /\ position_arg [] empty_position_kwargs = VList []
   /\ orientation_arg [] empty_position_kwargs = VNone
   /\ exists d,
        move [] "map" (Q2Qc 60) None empty_position_kwargs world_with_server
        = move_to_coordinates (VFloat 1) (VFloat (Q2Qc 2)) (VFloat 0) (VFloat 0) (VFloat 0)
            (VFloat 0) "map" (Q2Qc 60) None world_with_server
        /\ (move [] "map" (Q2Qc 60) None empty_position_kwargs world_with_server).1
           = Return (RActor d)
        /\ sent (move [] "map" (Q2Qc 60) None empty_position_kwargs world_with_server).2
           = [d])
  /\ move [] "map" (Q2Qc 60) None {["orientation" := quaternion_array]} world_with_server
     = (Raise (Raw (ValueError AMBIGUOUS_TRUTH)), world_with_server).
Proof.
  split; [ | reflexivity].
  repeat (split; [reflexivity | ]).
  eexists. split; [reflexivity | ]. split; reflexivity.
Qed.

(** move(position=[1.0, 2.0, 0.0], orientation=a) with a numpy array of four
    floats for the orientation: the truth test of line 200 raises. *)
Lemma move_array_orientation :
  move [] "map" (Q2Qc 60) None
    (<["position" := VList [VFloat 1; VFloat (Q2Qc 2); VFloat 0]]>
       {["orientation" := quaternion_array]}) world_with_server
  = (Raise (Raw (ValueError AMBIGUOUS_TRUTH)), world_with_server).
Proof. reflexivity. Qed.

(** C2 at move([1.0, 2.0, 0.0], x=1.0, y=2.0, yaw=0.0). *)
Lemma move_rejects_partial_pair_witness :
  move position_only_args "map" (Q2Qc 60) None coordinate_kwargs world_with_server
  = (Raise (Expect (ValueError msg_both)), world_with_server).
Proof.
  apply (proj1 (move_rejects_partial_pair "map" (Q2Qc 60) None world_with_server)
           position_only_args coordinate_kwargs true false).
  - reflexivity.
  - reflexivity.
  - reflexivity.
  - reflexivity.
  - discriminate.
Defined.

(** C3 at a first dispatch into an empty store, and at a dispatch of the
    pose ((1.0, 2.0, 0.0), (0.0, 0.0, 0.0, 1.0)) into a store that holds it
    written with integers. *)
Lemma move_to_goal_registers_once_witness :
  (waypoints (move_to_goal (VGoal sample_goal) (Q2Qc 60) None world_with_server).2
   = <["generic0" := sample_from_pose (target_pose sample_goal)]> ∅
   /\ history (move_to_goal (VGoal sample_goal) (Q2Qc 60) None world_with_server).2
      = [Registered "generic0" (sample_from_pose (target_pose sample_goal));
         Dispatched (SendGoalAndWait sample_goal (Q2Qc 60))])
  /\ waypoints (move_to_goal (VGoal sample_goal) (Q2Qc 60) None world_with_home).2
     = waypoints world_with_home.
Proof.
  split.
  - destruct (proj1 (proj2 (move_to_goal_registers_once sample_goal (Q2Qc 60) None
                              world_with_server eq_refl eq_refl)))
      as (Hstore & _ & _ & Hhistory).
    + intros k v Hk. vm_compute in Hk. discriminate Hk.
    + split; [exact Hstore | exact Hhistory].
  - refine (proj1 (proj1 (proj2 (proj2 (move_to_goal_registers_once sample_goal (Q2Qc 60)
                                          None world_with_home eq_refl eq_refl))) _)).
    exists "home", home_pose. split; reflexivity.
Defined.

(** C6 at an empty store. *)
Lemma move_to_waypoint_not_found_witness :
  exists msg,
    move_to_waypoint "nonexistent" "map" (Q2Qc 60) None world_with_server
    = (Return RNone, record_log LogErr msg world_with_server)
    /\ (waypoints world_with_server <> ∅ ->
        msg = "Waypoint '" +:+ "nonexistent" +:+ "' does not exist. Available waypoints:"
              +:+ newline +:+ _waypoints_to_str (waypoints world_with_server))
    /\ (waypoints world_with_server = ∅ ->
        msg = "No waypoints defined yet, so cannot use waypoint '" +:+ "nonexistent" +:+ "'.")
    /\ sent (move_to_waypoint "nonexistent" "map" (Q2Qc 60) None world_with_server).2
       = sent world_with_server.
Proof.
  apply (move_to_waypoint_not_found "nonexistent" "map" (Q2Qc 60) None world_with_server).
  reflexivity.
Defined.

(** C7 in a world without a move_base server. *)
Lemma navigation_unavailable_is_logged_witness :
  move_to_goal (VGoal sample_goal) (Q2Qc 60) None world_without_server
  = (Return RNone, record_log LogErr MOVE_BASE_MISSING world_without_server).
Proof.
  apply (proj1 (navigation_unavailable_is_logged (Q2Qc 60) None world_without_server
                  eq_refl eq_refl)).
Defined.

(** C8 at move(1.0, 2.0, 0.0) without a server, and at an unknown waypoint. *)
Lemma failed_movement_has_no_effect_witness :
  waypoints (move [VFloat 1; VFloat (Q2Qc 2); VFloat 0] "map" (Q2Qc 60) None ∅
               world_without_server).2
  = waypoints world_without_server
  /\ sent (move_to_waypoint "nonexistent" "map" (Q2Qc 60) None world_with_server).2
     = sent world_with_server.
Proof.
  split.
  - apply (proj1 (proj2 (proj1 (failed_movement_has_no_effect world_without_server)
                           eq_refl eq_refl))).
  - apply (proj2 (failed_movement_has_no_effect world_with_server)
             "nonexistent" "map" (Q2Qc 60) None).
    reflexivity.
Defined.

(** C9 at move(1.0, 2.0, 0.0). *)
Lemma move_x_y_yaw_witness :
  exists d,
    (move [VFloat 1; VFloat (Q2Qc 2); VFloat 0] "map" (Q2Qc 60) None ∅ world_with_server).1
      = Return (client_result d)
    /\ sent (move [VFloat 1; VFloat (Q2Qc 2); VFloat 0] "map" (Q2Qc 60) None ∅
               world_with_server).2
       = (sent world_with_server ++ [d])%list
    /\ dispatched_goal d
       = mkGoal "map" (ros_now world_with_server)
           (to_pose (VTuple [VTuple [VFloat 1; VFloat (Q2Qc 2); VFloat 0];
                             quaternion_from_euler (VFloat 0) (VFloat 0) (VFloat 0)])).
Proof.
  apply (move_x_y_yaw 1 (Q2Qc 2) 0 "map" (Q2Qc 60) None world_with_server). reflexivity.
Defined.

(** C10 at move(x=1, y=2, yaw=0). *)
Lemma move_integer_coordinates_witness :
  exists d,
    sent (move [] "map" (Q2Qc 60) None
            (<["x" := VInt 1]> (<["y" := VInt 2]> {["yaw" := VInt 0]})) world_with_server).2
    = [d].
Proof.
  destruct (proj2 (proj2 (move_integer_coordinates 1 2 0 "map" (Q2Qc 60) None
                            world_with_server)) eq_refl) as (d & _ & Hd & _).
  exists d. exact Hd.
Defined.

End Instances.

(** C5 at a lookup error followed by an extrapolation error, timeout 1.0. *)
Lemma get_pose_retry_extrapolation_escapes_witness :
  exists w',
    get_pose "map" "base_footprint" 1 (initial_world true lookup_then_extrapolation)
      = Some (Raise (Raw ExtrapolationException), w')
    /\ tf_calls w' = 2%nat.
Proof.
  apply (get_pose_retry_extrapolation_escapes "map" "base_footprint" 1 LookupException
           (initial_world true lookup_then_extrapolation)); reflexivity.
Defined.

(** * Further properties of core.py *)

(** ** Runtime type tests *)

Section TypeTests.

Lemma forallb_is_float (l : list pyval) :
  forallb (fun element => _isinstance element Tfloat) l = true
  <-> exists fs : list float, l = VFloat <$> fs.
Proof.
  induction l as [ | v l IH]; cbn.
  - split; [by exists [] | done].
  - rewrite andb_true_iff, IH. split.
    + intros [Hv [fs ->]]. destruct v; try done. by exists (f :: fs).
    + intros [[ | f fs] Hfs]; [done | ]. cbn in Hfs. injection Hfs as -> ->.
      split; [done | by exists fs].
Qed.

(** X1: _get_at never fails: an index at or beyond the end of the
    arguments gives None, and whatever it returns is None or a value of the
    requested type. *)
Theorem _get_at_in_range_and_typed (args : list pyval) (k : nat) (t : pytype) :
  _get_at args (length args + k) t = VNone
  /\ forall index,
       _get_at args index t = VNone
       \/ (args !! index = Some (_get_at args index t)
           /\ _isinstance (_get_at args index t) t = true).
Proof.
  split.
  - unfold _get_at. by rewrite lookup_ge_None_2 by lia.
  - intros index. unfold _get_at. destruct (args !! index) as [v | ]; [ | by left].
    destruct (_isinstance v t) eqn:Hv; [right | by left]. done.
Qed.

Lemma Sequence_float_spec (v : pyval) :
  _isinstance v TSequence_float = true
  <-> (exists fs : list float, v = VList (VFloat <$> fs) \/ v = VTuple (VFloat <$> fs))
      \/ v = VStr EmptyString.
Proof.
  unfold TSequence_float. cbn [_isinstance].
  destruct v as [ | b | n | f | s | l | l | p | g | f0 fs0 | c]; cbn [sequence_elements];
    try (split; [done | intros [[fs [H | H]] | H]; done]).
  - destruct s as [ | c s]; cbn.
    + split; [by right | done].
    + split; [done | intros [[fs [H | H]] | H]; done].
  - rewrite forallb_is_float. split.
    + intros [fs ->]. left. exists fs. by left.
    + intros [[fs [H | H]] | H]; try done. injection H as ->. by exists fs.
  - rewrite forallb_is_float. split.
    + intros [fs ->]. left. exists fs. by right.
    + intros [[fs [H | H]] | H]; try done. injection H as ->. by exists fs.
Qed.

(** X2: what Sequence[float] accepts: a list or a tuple all of whose
    elements are floats (integers and booleans are not), and, since a str is
    a Sequence, the empty string -- but no other string. *)
Theorem Sequence_float_accepts (v : pyval) :
  _isinstance v TSequence_float = true
  <-> (exists fs : list float, v = VList (VFloat <$> fs) \/ v = VTuple (VFloat <$> fs))
      \/ v = VStr EmptyString.
Proof. apply Sequence_float_spec. Qed.

Lemma PoseLike_spec (v : pyval) :
  _isinstance v TPoseLike = true
  <-> (exists p, v = VPose p)
      \/ (exists a b, v = VTuple [a; b]
                      /\ _isinstance a TSequence_float = true
                      /\ _isinstance b TSequence_float = true).
Proof.
  unfold TPoseLike. cbn [_isinstance existsb isinstance].
  destruct v as [ | b | n | f | s | l | l | p | g | f0 fs0 | c]; cbn;
    try (split; [done | intros [[p' H] | (a & b' & H & _)]; done]).
  - destruct l as [ | a [ | b [ | c l]]]; cbn;
      try (split; [done | intros [[p' H] | (a' & b' & H & _)]; done]).
    rewrite orb_false_r, andb_true_r, !andb_true_iff. split.
    + intros (_ & Ha & Hb). right. by exists a, b.
    + intros [[p' H] | (a' & b' & H & Ha & Hb)]; [done | ]. by injection H as -> ->.
  - split; [intros _; left; by exists p | done].
Qed.

(** X3: what the pose annotation Union[Pose, Tuple[Sequence[float],
    Sequence[float]]] accepts: a native Pose, or a tuple of exactly two
    sequences of floats.  A list of two sequences is not a pose. *)
Theorem PoseLike_accepts (v : pyval) :
  _isinstance v TPoseLike = true
  <-> (exists p, v = VPose p)
      \/ (exists a b, v = VTuple [a; b]
                      /\ _isinstance a TSequence_float = true
                      /\ _isinstance b TSequence_float = true).
Proof. apply PoseLike_spec. Qed.

Lemma PoseLike_not_Sequence_float (v : pyval) :
  _isinstance v TPoseLike = true -> _isinstance v TSequence_float = false.
Proof.
  intros H. apply PoseLike_spec in H as [[p ->] | (a & b & -> & Ha & Hb)]; [done | ].
  apply Sequence_float_spec in Ha as [[fs [-> | ->]] | ->]; done.
Qed.

(** X4: a positional argument is never read as two shapes: with no keyword
    arguments, at most one of goal, pose, position and x is taken from the
    first positional argument. *)
Theorem first_positional_is_one_shape (args : list pyval) :
  (length (List.filter (fun v => negb (is_None v))
             [goal_arg args ∅; pose_arg args ∅; position_arg args ∅; x_arg args ∅]) <= 1)%nat.
Proof.
  unfold goal_arg, pose_arg, position_arg, x_arg, kwargs_get, _get_at.
  rewrite !lookup_empty.
  destruct (args !! 0%nat) as [v | ]; [ | cbn; lia].
  destruct (_isinstance v TPoseLike) eqn:Hpose.
  - rewrite (PoseLike_not_Sequence_float v Hpose).
    apply PoseLike_spec in Hpose as [[p ->] | (a & b & -> & _)]; cbn; lia.
  - destruct v as [ | b | n | f | s | l | l | p | g | f0 fs0 | c]; cbn in *;
      repeat case_match; cbn; try lia; done.
Qed.

End TypeTests.

(** ** Robot.__init__ *)

Section Namespace.

Lemma endswith_spec (s suffix : string) :
  endswith s suffix = true <-> exists front, s = front +:+ suffix.
Proof.
  induction s as [ | c s IH]; cbn [endswith].
  - rewrite orb_false_r, String.eqb_eq. split.
    + intros <-. by exists EmptyString.
    + intros [[ | c front] H]; [done | discriminate H].
  - rewrite orb_true_iff, String.eqb_eq, IH. split.
    + intros [<- | [front ->]]; [by exists EmptyString | by exists (String c front)].
    + intros [[ | c' front] H]; [by left | ]. right. cbn in H. injection H as -> ->.
      by exists front.
Qed.

Lemma startswith_slash (s : string) :
  startswith s "/" = true <-> exists rest, s = "/" +:+ rest.
Proof.
  unfold startswith. rewrite String.prefix_correct.
  destruct s as [ | c s]; simpl.
  - split; [done | by intros [rest H]].
  - replace (String.substring 0 0 s) with EmptyString by (by destruct s).
    split.
    + intros [= ->]. by exists s.
    + intros [rest [= -> _]]. done.
Qed.

Lemma append_empty_r (s : string) : s +:+ "" = s.
Proof.
  induction s as [ | c s IH]; [done | ].
  change (String c (s +:+ "") = String c s). by rewrite IH.
Qed.

Lemma endswith_append (front suffix : string) : endswith (front +:+ suffix) suffix = true.
Proof. apply endswith_spec. by exists front. Qed.

Lemma Robot_namespace_delimited (namespace : string) :
  startswith (Robot_init_namespace namespace) "/" = true
  /\ endswith (Robot_init_namespace namespace) "/" = true
  /\ Robot_init_namespace namespace
     = (if startswith namespace "/" then "" else "/") +:+ namespace
       +:+ (if endswith ((if startswith namespace "/" then "" else "/") +:+ namespace) "/"
            then "" else "/").
Proof.
  unfold Robot_init_namespace.
  destruct (startswith namespace "/") eqn:Hs; cbn [negb].
  - change ("" +:+ namespace) with namespace.
    destruct (endswith namespace "/") eqn:He; cbn [negb].
    + split; [done | ]. split; [done | ]. by rewrite append_empty_r.
    + split; [ | split; [apply endswith_append | done]].
      apply startswith_slash in Hs as [rest ->].
      apply startswith_slash. by exists (rest +:+ "/").
  - destruct (endswith ("/" +:+ namespace) "/") eqn:He; cbn [negb].
    + split; [apply startswith_slash; by exists namespace | ].
      split; [done | ]. by rewrite append_empty_r.
    + split; [apply startswith_slash; by exists (namespace +:+ "/") | ].
      split; [ | done].
      apply (endswith_append ("/" +:+ namespace) "/").
Qed.

(** X5: the namespace Robot.__init__ stores always starts and ends with a
    slash; it is the given namespace with a slash added in front and behind
    only where one is missing, so the empty namespace becomes "/". *)
Theorem Robot_namespace_is_delimited (namespace : string) :
  startswith (Robot_init_namespace namespace) "/" = true
  /\ endswith (Robot_init_namespace namespace) "/" = true
  /\ Robot_init_namespace namespace
     = (if startswith namespace "/" then "" else "/") +:+ namespace
       +:+ (if endswith ((if startswith namespace "/" then "" else "/") +:+ namespace) "/"
            then "" else "/")
  /\ Robot_init_namespace "" = "/".
Proof.
  destruct (Robot_namespace_delimited namespace) as (Hs & He & Heq). done.
Qed.

(** X6: normalising a namespace twice changes nothing more, and a
    namespace that already starts and ends with a slash is kept as it is. *)
Theorem Robot_namespace_idempotent (namespace : string) :
  Robot_init_namespace (Robot_init_namespace namespace) = Robot_init_namespace namespace
  /\ (startswith namespace "/" && endswith namespace "/" = true ->
      Robot_init_namespace namespace = namespace).
Proof.
  assert (Hfix : forall s, startswith s "/" && endswith s "/" = true ->
                           Robot_init_namespace s = s).
  { intros s [Hs He]%andb_true_iff. unfold Robot_init_namespace.
    rewrite Hs. cbn [negb]. by rewrite He. }
  split; [ | apply Hfix].
  apply Hfix. destruct (Robot_namespace_delimited namespace) as (Hs & He & _).
  by rewrite Hs, He.
Qed.

End Namespace.

(** ** Further properties of move and the movement methods *)

Section MoreMovement.
Context {ext : Externals}.

(** X7: positional coordinates.  Six floats are x, y, z, roll, pitch, yaw in
    that order.  With four or five floats the yaw is read at index 2: the
    third positional argument serves both as z and as yaw, and the angles
    not given are 0.0. *)
Theorem move_positional_coordinates (a b c d e f : float) (frame_id : string)
    (timeout : float) (done_cb : option callback) (w : world) :
  move [VFloat a; VFloat b; VFloat c; VFloat d; VFloat e; VFloat f]
    frame_id timeout done_cb ∅ w
  = move_to_coordinates (VFloat a) (VFloat b) (VFloat c) (VFloat d) (VFloat e) (VFloat f)
      frame_id timeout done_cb w
  /\ move [VFloat a; VFloat b; VFloat c; VFloat d; VFloat e] frame_id timeout done_cb ∅ w
     = move_to_coordinates (VFloat a) (VFloat b) (VFloat c) (VFloat d) (VFloat e) (VFloat c)
         frame_id timeout done_cb w
  /\ move [VFloat a; VFloat b; VFloat c; VFloat d] frame_id timeout done_cb ∅ w
     = move_to_coordinates (VFloat a) (VFloat b) (VFloat c) (VFloat d) (VFloat 0) (VFloat c)
         frame_id timeout done_cb w.
Proof. repeat split; reflexivity. Qed.

(** X8: a goal passed by keyword wins over every positional argument and
    every other keyword, and the frame_id of the call is not used. *)
Theorem move_keyword_goal_wins (g : MoveBaseGoal) (args : list pyval) (frame_id : string)
    (timeout : float) (done_cb : option callback) (kwargs : gmap string pyval) (w : world) :
  move args frame_id timeout done_cb (<["goal" := VGoal g]> kwargs) w
  = move_to_goal (VGoal g) timeout done_cb w.
Proof.
  assert (Hg : goal_arg args (<["goal" := VGoal g]> kwargs) = VGoal g).
  { unfold goal_arg, kwargs_get. by rewrite lookup_insert_eq. }
  unfold move. by rewrite Hg.
Qed.

Lemma Sequence_float_not_PoseLike (v : pyval) :
  _isinstance v TSequence_float = true -> _isinstance v TPoseLike = false.
Proof.
  intros H. destruct (_isinstance v TPoseLike) eqn:Hp; [ | done].
  apply PoseLike_not_Sequence_float in Hp. congruence.
Qed.

(** X9: a first positional argument that is a pose (a native Pose, or a
    tuple of two float sequences) is dispatched as that pose whatever
    follows it: a native Pose as it is, a tuple through TuplePose.to_pose;
    with a connection the goal handed to the action client carries it, the
    frame_id of the call and the current ROS time, and the call returns
    what the client returns. *)
Theorem move_positional_pose (v : pyval) (rest : list pyval) (frame_id : string)
    (timeout : float) (done_cb : option callback) (w : world) :
  _isinstance v TPoseLike = true ->
  connected w || server_up w = true ->
  let pose := match v with VPose p => p | _ => to_pose v end in
  move (v :: rest) frame_id timeout done_cb ∅ w
    = move_to_pose pose frame_id timeout done_cb w
  /\ exists d,
       (move (v :: rest) frame_id timeout done_cb ∅ w).1 = Return (client_result d)
       /\ sent (move (v :: rest) frame_id timeout done_cb ∅ w).2 = (sent w ++ [d])%list
       /\ dispatched_goal d = mkGoal frame_id (ros_now w) pose.
Proof.
  intros Hv Hconn pose.
  assert (Heq : move (v :: rest) frame_id timeout done_cb ∅ w
                = move_to_pose pose frame_id timeout done_cb w).
  { unfold move, goal_arg, pose_arg, kwargs_get, _get_at. rewrite !lookup_empty.
    cbn [lookup list_lookup]. rewrite Hv.
    apply PoseLike_spec in Hv as [[p ->] | (a & b & -> & _)]; reflexivity. }
  split; [done | ]. rewrite Heq.
  by apply move_to_pose_dispatches.
Qed.

(** X10: two non-empty float sequences passed positionally are combined
    into the pose (position, orientation). *)
Theorem move_positional_position_orientation (position orientation : pyval)
    (rest : list pyval) (frame_id : string) (timeout : float) (done_cb : option callback)
    (w : world) :
  _isinstance position TSequence_float = true -> truthy position = Return true ->
  _isinstance orientation TSequence_float = true -> truthy orientation = Return true ->
  move (position :: orientation :: rest) frame_id timeout done_cb ∅ w
  = move_to_pose (to_pose (VTuple [position; orientation])) frame_id timeout done_cb w.
Proof.
  intros Hp Htp Ho Hto.
  unfold move, goal_arg, pose_arg, position_arg, orientation_arg, kwargs_get, _get_at.
  rewrite !lookup_empty. cbn [lookup list_lookup].
  rewrite (Sequence_float_not_PoseLike _ Hp), Hp, Ho.
  unfold or_else, and_then, py_not, truth, mbind, M_bind, mret, M_ret.
  apply Sequence_float_spec in Hp as Hp'.
  destruct Hp' as [[fs [-> | ->]] | ->]; cbn [_isinstance isinstance is_None];
    rewrite ?Htp, ?Hto; try done; cbn in Htp; done.
Qed.

(** X11: a list alone never resolves: the canonical pose must be a tuple,
    and a position needs an orientation, so move(list) fails with
    InvalidArguments for every list. *)
Theorem move_single_list_is_rejected (l : list pyval) (frame_id : string)
    (timeout : float) (done_cb : option callback) (w : world) :
  exists msg,
    move [VList l] frame_id timeout done_cb ∅ w = (Raise (Expect (ValueError msg)), w).
Proof.
  unfold move, goal_arg, pose_arg, position_arg, orientation_arg, x_arg, kwargs_get, _get_at.
  rewrite !lookup_empty. cbn [lookup list_lookup].
  replace (_isinstance (VList l) (TClass CMoveBaseGoal)) with false by reflexivity.
  replace (_isinstance (VList l) TPoseLike) with false by reflexivity.
  replace (_isinstance (VList l) Tfloat) with false by reflexivity.
  cbn [is_None negb orb andb].
  destruct (_isinstance (VList l) TSequence_float); [destruct l | ]; cbn;
    eexists; reflexivity.
Qed.

(** X12: fewer than three positional floats are not enough: there is no
    default yaw. *)
Theorem move_needs_yaw (fs : list float) (frame_id : string) (timeout : float)
    (done_cb : option callback) (w : world) :
  (length fs < 3)%nat ->
  move (VFloat <$> fs) frame_id timeout done_cb ∅ w
  = (Raise (Expect (ValueError msg_no_shape)), w).
Proof.
  intros Hlen. destruct fs as [ | x [ | y [ | z fs]]]; cbn in Hlen; try lia; reflexivity.
Qed.

(** What one call of move_to_goal does to the action client and to the
    store. *)
Lemma move_to_goal_sends (goal : pyval) (timeout : float) (done_cb : option callback)
    (w : world) :
  let r := (move_to_goal goal timeout done_cb w).1 in
  let w' := (move_to_goal goal timeout done_cb w).2 in
  (sent w' = sent w /\ history w' = history w /\ waypoints w' = waypoints w
   /\ (r = Return RNone \/ exists e, r = Raise (Raw e)))
  \/ (exists g, goal = VGoal g
        /\ sent w' = (sent w ++ [dispatch_of g timeout done_cb])%list
        /\ r = Return (client_result (dispatch_of g timeout done_cb))
        /\ known g w' = true).
Proof.
  intros r w'. subst r w'.
  destruct (connected w || server_up w) eqn:Hconn.
  - destruct goal as [ | | | | | | | | g | | ];
      try (left; unfold move_to_goal, mbind, M_bind; rewrite (connect_available _ _ Hconn);
           cbn; repeat split; try done; right; by eexists).
    right. exists g. split; [done | ].
    destruct (move_to_goal_world g timeout done_cb w Hconn) as (Hws & Hsent & _).
    split; [done | ]. split; [by rewrite (move_to_goal_connected _ _ _ _ Hconn) | ].
    unfold known. rewrite Hws. apply known_before_dispatch.
  - left. apply orb_false_iff in Hconn as [Hc Hs].
    rewrite (move_to_goal_unavailable _ _ _ _ Hc Hs). cbn. repeat split; try done. by left.
Qed.

Lemma move_sends_cases (args : list pyval) (frame_id : string)
    (timeout : float) (done_cb : option callback) (kwargs : gmap string pyval) (w : world) :
  let r := (move args frame_id timeout done_cb kwargs w).1 in
  let w' := (move args frame_id timeout done_cb kwargs w).2 in
  (sent w' = sent w /\ history w' = history w /\ waypoints w' = waypoints w
   /\ (r = Return RNone \/ exists e, r = Raise e))
  \/ (exists d, sent w' = (sent w ++ [d])%list
        /\ r = Return (client_result d)
        /\ d = dispatch_of (dispatched_goal d) timeout done_cb
        /\ known (dispatched_goal d) w' = true).
Proof.
  intros r w'. subst r w'.
  destruct (move_cases args frame_id timeout done_cb kwargs w)
    as [(msg & _ & ->) | [-> | (goal & ->)]].
  - left. repeat split; try done. right. by eexists.
  - left. repeat split; try done. right. by eexists.
  - destruct (move_to_goal_sends goal timeout done_cb w)
      as [(Hs & Hh & Hws & [Hr | [e Hr]]) | (g & -> & Hs & Hr & Hk)].
    + left. repeat split; try done. by left.
    + left. repeat split; try done. right. by eexists.
    + right. exists (dispatch_of g timeout done_cb).
      assert (Hg : dispatched_goal (dispatch_of g timeout done_cb) = g)
        by by destruct done_cb.
      rewrite Hg. done.
Qed.

(** X13: every call of move hands at most one goal to the action client.
    When nothing is sent, the store is as before and move returned None or
    raised.  When a goal is sent, it is the one call appended to what the
    client received, move returns what the client returned for it (the
    terminal result when it waited, None with a callback), and the store
    holds a value equal to the pose of the goal.  So without a callback,
    None is returned only when nothing was sent. *)
Theorem move_sends_at_most_one_goal (args : list pyval) (frame_id : string)
    (timeout : float) (done_cb : option callback) (kwargs : gmap string pyval) (w : world) :
  let r := (move args frame_id timeout done_cb kwargs w).1 in
  let w' := (move args frame_id timeout done_cb kwargs w).2 in
  ((sent w' = sent w /\ history w' = history w /\ waypoints w' = waypoints w
    /\ (r = Return RNone \/ exists e, r = Raise e))
   \/ (exists d, sent w' = (sent w ++ [d])%list
         /\ r = Return (client_result d)
         /\ d = dispatch_of (dispatched_goal d) timeout done_cb
         /\ known (dispatched_goal d) w' = true))
  /\ (done_cb = None -> r = Return RNone -> sent w' = sent w).
Proof.
  intros r w'. subst r w'.
  pose proof (move_sends_cases args frame_id timeout done_cb kwargs w) as Hcases.
  cbn zeta in Hcases. split; [exact Hcases | ].
  intros -> Hnone. destruct Hcases as [(Hs & _) | (d & _ & Hr & Hd & _)]; [done | ].
  rewrite Hnone, Hd in Hr. done.
Qed.

(** X14: InvalidArguments comes from the resolution only and before any
    effect: if move raises an expected error, it is one of the two
    ValueErrors of move and the world is as it was. *)
Theorem move_invalid_arguments_no_effect (args : list pyval) (frame_id : string)
    (timeout : float) (done_cb : option callback) (kwargs : gmap string pyval)
    (w w' : world) (e : exception) :
  move args frame_id timeout done_cb kwargs w = (Raise (Expect e), w') ->
  w' = w /\ (e = ValueError msg_no_shape \/ e = ValueError msg_both).
Proof.
  destruct (move_cases args frame_id timeout done_cb kwargs w)
    as [(msg & Hmsg & ->) | [-> | (goal & ->)]].
  - intros [= <- <-]. split; [done | ]. destruct Hmsg as [-> | ->]; by (left + right).
  - done.
  - intros H. exfalso.
    destruct (move_to_goal_sends goal timeout done_cb w)
      as [(_ & _ & _ & [Hr | [e' Hr]]) | (g & _ & _ & Hr & _)];
      rewrite H in Hr; done.
Qed.

(** X15: with a completion callback the timeout is not used: the call does
    the same for every timeout, a goal that is handed over is handed over
    with send_goal and that callback, and the call returns None whenever it
    returns. *)
Theorem move_callback_ignores_timeout (args : list pyval) (frame_id : string)
    (timeout timeout' : float) (cb : callback) (kwargs : gmap string pyval) (w : world) :
  move args frame_id timeout (Some cb) kwargs w
  = move args frame_id timeout' (Some cb) kwargs w
  /\ (sent (move args frame_id timeout (Some cb) kwargs w).2 = sent w
      \/ exists g, sent (move args frame_id timeout (Some cb) kwargs w).2
                   = (sent w ++ [SendGoal g cb])%list)
  /\ forall r, (move args frame_id timeout (Some cb) kwargs w).1 = Return r -> r = RNone.
Proof.
  assert (Hgoal : forall goal w0,
            move_to_goal goal timeout (Some cb) w0 = move_to_goal goal timeout' (Some cb) w0).
  { intros goal w0. unfold move_to_goal, mbind, M_bind.
    destruct (_connect _ w0) as [[[] | ] w1]; cbn; try done; by destruct goal. }
  split; [ | split].
  - rewrite !move_unfold_precedence.
    destruct (truth_failure args kwargs); [done | ].
    destruct (partial_pair args kwargs); [done | ].
    unfold resolve_by_precedence.
    destruct (first_present_shape args kwargs) as [[ | | | ] | ]; cbn [dispatch_shape];
      unfold move_to_coordinates, move_to_position_and_orientation,
        move_to_tuple_pose, move_to_pose, mbind, M_bind, gets;
      try done; try apply Hgoal.
  - destruct (move_sends_cases args frame_id timeout (Some cb) kwargs w)
      as [(Hs & _) | (d & Hs & _ & Hd & _)]; [by left | right].
    exists (dispatched_goal d). by rewrite Hs, Hd at 1.
  - intros r Hr.
    destruct (move_sends_cases args frame_id timeout (Some cb) kwargs w)
      as [(_ & _ & _ & [Hn | [e He]]) | (d & _ & Hd & Hform & _)]; try congruence.
    rewrite Hr in Hd. injection Hd as ->. by rewrite Hform.
Qed.

(** X16: moving to a stored waypoint whose value is equal to what the round
    trip through the native pose gives leaves the store as it is (the pose
    is already known), and with a connection sends the stored pose in the
    given frame. *)
Theorem move_to_known_waypoint (name frame_id : string) (timeout : float)
    (done_cb : option callback) (pose : data) (w : world) :
  waypoints w !! name = Some pose ->
  py_eq pose (from_pose (to_pose (value pose))) = true ->
  connected w || server_up w = true ->
  waypoints (move_to_waypoint name frame_id timeout done_cb w).2 = waypoints w
  /\ exists d,
       (move_to_waypoint name frame_id timeout done_cb w).1 = Return (client_result d)
       /\ sent (move_to_waypoint name frame_id timeout done_cb w).2 = (sent w ++ [d])%list
       /\ dispatched_goal d = mkGoal frame_id (ros_now w) (to_pose (value pose)).
Proof.
  intros Hname Hround Hconn.
  assert (Heq : move_to_waypoint name frame_id timeout done_cb w
                = move_to_pose (to_pose (value pose)) frame_id timeout done_cb w).
  { unfold move_to_waypoint, mbind at 1, M_bind, gets. by rewrite Hname. }
  rewrite Heq. split; [ | by apply move_to_pose_dispatches].
  unfold move_to_pose, mbind, M_bind, gets.
  destruct (move_to_goal_world (mkGoal frame_id (ros_now w) (to_pose (value pose))) timeout
              done_cb w Hconn) as (-> & _).
  apply waypoints_before_dispatch_known. apply py_in_waypoint_values.
  by exists name, pose.
Qed.

(** X24: frame_id is a keyword-only parameter: a frame id passed
    positionally after x, y, yaw is not used as the frame.  It makes the
    call a four-coordinate one, in which z is the yaw value and roll is
    None, in the frame given by keyword. *)
Theorem move_positional_frame_id (x y yaw : float) (frame : string) (frame_id : string)
    (timeout : float) (done_cb : option callback) (w : world) :
  move [VFloat x; VFloat y; VFloat yaw; VStr frame] frame_id timeout done_cb ∅ w
  = move_to_coordinates (VFloat x) (VFloat y) (VFloat yaw) VNone (VFloat 0) (VFloat yaw)
      frame_id timeout done_cb w.
Proof. reflexivity. Qed.

End MoreMovement.

(** ** The further properties at concrete calls *)

Section MoreInstances.
#[local] Existing Instance sample_externals.

(** X6 at "/robot/". *)
Lemma Robot_namespace_idempotent_witness : Robot_init_namespace "/robot/" = "/robot/".
Proof. apply (proj2 (Robot_namespace_idempotent "/robot/")). reflexivity. Defined.

(** X9 at move(((1.0, 2.0, 0.0), (0.0, 0.0, 0.0, 1.0))). *)
Lemma move_positional_pose_witness :
  exists d,
    (move [sample_tuple_pose] "map" (Q2Qc 60) None ∅ world_with_server).1
      = Return (client_result d)
    /\ sent (move [sample_tuple_pose] "map" (Q2Qc 60) None ∅ world_with_server).2
       = (sent world_with_server ++ [d])%list
    /\ dispatched_goal d
       = mkGoal "map" (ros_now world_with_server) (to_pose sample_tuple_pose).
Proof.
  apply (proj2 (move_positional_pose sample_tuple_pose [] "map" (Q2Qc 60) None
                  world_with_server eq_refl eq_refl)).
Defined.

(** X10 at move([1.0, 2.0, 0.0], [0.0, 0.0, 0.0, 1.0]). *)
Lemma move_positional_position_orientation_witness :
  move [VList [VFloat 1; VFloat (Q2Qc 2); VFloat 0];
        VList [VFloat 0; VFloat 0; VFloat 0; VFloat 1]]
    "map" (Q2Qc 60) None ∅ world_with_server
  = move_to_pose
      (to_pose (VTuple [VList [VFloat 1; VFloat (Q2Qc 2); VFloat 0];
                        VList [VFloat 0; VFloat 0; VFloat 0; VFloat 1]]))
      "map" (Q2Qc 60) None world_with_server.
Proof.
  apply (move_positional_position_orientation
           (VList [VFloat 1; VFloat (Q2Qc 2); VFloat 0])
           (VList [VFloat 0; VFloat 0; VFloat 0; VFloat 1]) []); reflexivity.
Defined.

(** X12 at move(1.0, 2.0). *)
Lemma move_needs_yaw_witness :
  move (VFloat <$> [1; Q2Qc 2]) "map" (Q2Qc 60) None ∅ world_with_server
  = (Raise (Expect (ValueError msg_no_shape)), world_with_server).
Proof. apply (move_needs_yaw [1; Q2Qc 2]). simpl. lia. Defined.

(** X14 at move([1.0, 2.0, 0.0], x=1.0, y=2.0, yaw=0.0). *)
Lemma move_invalid_arguments_no_effect_witness :
  world_with_server = world_with_server
  /\ (ValueError msg_both = ValueError msg_no_shape
      \/ ValueError msg_both = ValueError msg_both).
Proof.
  apply (move_invalid_arguments_no_effect position_only_args "map" (Q2Qc 60) None
           coordinate_kwargs world_with_server world_with_server (ValueError msg_both)).
  reflexivity.
Defined.

(** X15 at move(1.0, 2.0, 0.0, done_cb=cb), with timeouts 60 and 1. *)
Lemma move_callback_ignores_timeout_witness :
  move [VFloat 1; VFloat (Q2Qc 2); VFloat 0] "map" (Q2Qc 60) (Some (Callback 0)) ∅
    world_with_server
  = move [VFloat 1; VFloat (Q2Qc 2); VFloat 0] "map" 1 (Some (Callback 0)) ∅
      world_with_server.
Proof.
  apply (proj1 (move_callback_ignores_timeout [VFloat 1; VFloat (Q2Qc 2); VFloat 0] "map"
                  (Q2Qc 60) 1 (Callback 0) ∅ world_with_server)).
Defined.

(** X16 at a store holding the waypoint "home", written with integers. *)
Lemma move_to_known_waypoint_witness :
  waypoints (move_to_waypoint "home" "map" (Q2Qc 60) None world_with_home).2
  = waypoints world_with_home.
Proof.
  refine (proj1 (move_to_known_waypoint "home" "map" (Q2Qc 60) None home_pose
                   world_with_home _ _ _)).
  - reflexivity.
  - vm_compute. reflexivity.
  - reflexivity.
Defined.

End MoreInstances.

(** X17 at a pose service raising a connectivity error. *)
Lemma get_pose_first_attempt_decides_witness :
  get_pose "map" "base_footprint" 1 (initial_world true (failing_service ConnectivityException))
  = Some (Raise (Raw ConnectivityException),
          advance_clock 0
            (count_tf_call (initial_world true (failing_service ConnectivityException)))).
Proof.
  apply (proj2 (get_pose_first_attempt_decides "map" "base_footprint" 1
                  (initial_world true (failing_service ConnectivityException)))
           ConnectivityException eq_refl eq_refl).
Defined.

(** X18 at a pose service failing at once on every call, timeout 2. *)
Lemma get_pose_terminates_witness :
  exists o w',
    get_pose "map" "base_footprint" (Q2Qc 2) world_with_server = Some (o, w')
    /\ (tf_calls world_with_server < tf_calls w')%nat
    /\ (tf_calls w' <= S (tf_calls world_with_server + retry_fuel (Q2Qc 2)))%nat
    /\ pose_query_frame world_with_server w'.
Proof.
  apply (get_pose_terminates "map" "base_footprint" (Q2Qc 2) world_with_server).
  intros n a b. vm_compute. discriminate.
Defined.

(** X19 at an extrapolation error followed by lookup errors, timeout 2. *)
Lemma get_pose_exhausts_witness :
  exists w',
    get_pose "map" "base_footprint" (Q2Qc 2) (initial_world true extrapolation_then_lookup)
      = Some (Raise (Expect ExtrapolationException), w')
    /\ tf_calls w' = 3%nat.
Proof.
  destruct (get_pose_exhausts "map" "base_footprint" (Q2Qc 2) ExtrapolationException
              (initial_world true extrapolation_then_lookup))
    as (w' & Hget & _ & _ & _ & Hcalls).
  - reflexivity.
  - reflexivity.
  - reflexivity.
  - intros [ | n] a b Hn; [simpl in Hn; lia | reflexivity].
  - exists w'. split; [exact Hget | exact Hcalls].
Defined.

(** X20 at a negative timeout. *)
Lemma get_pose_without_retries_witness :
  get_pose "map" "base_footprint" (Q2Qc (-1)) world_with_server
  = Some (Raise (Expect LookupException), advance_clock 0 (count_tf_call world_with_server)).
Proof.
  apply (get_pose_without_retries "map" "base_footprint" (Q2Qc (-1)) LookupException
           world_with_server).
  - vm_compute. discriminate.
  - reflexivity.
  - reflexivity.
Defined.

(** X21 at a pose found by the second retry, timeout 2. *)
Lemma get_pose_retry_succeeds_witness :
  exists w',
    get_pose "map" "base_footprint" (Q2Qc 2)
      (initial_world true (found_at_third_call sample_tuple_pose))
      = Some (Return sample_tuple_pose, w')
    /\ tf_calls w' = 3%nat.
Proof.
  destruct (get_pose_retry_succeeds "map" "base_footprint" (Q2Qc 2) LookupException
              sample_tuple_pose 1
              (initial_world true (found_at_third_call sample_tuple_pose)))
    as (w' & Hget & _ & Hcalls).
  - reflexivity.
  - reflexivity.
  - intros [ | i] Hi; [reflexivity | lia].
  - reflexivity.
  - reflexivity.
  - exists w'. split; [exact Hget | exact Hcalls].
Defined.

(** X23 at one pose to compare with and a failing pose service. *)
Lemma get_pose_name_needs_pose_witness :
  exists w',
    Base_get_pose_name (fun _ _ _ _ => Some "home") {["home" := sample_tuple_pose]}
      XY_TOLERANCE YAW_TOLERANCE 1 world_with_server
    = Some (Raise (Expect LookupException), w').
Proof.
  apply (get_pose_name_needs_pose (fun _ _ _ _ => Some "home")
           {["home" := sample_tuple_pose]} XY_TOLERANCE YAW_TOLERANCE 1 world_with_server).
  - apply (bool_decide_unpack _). vm_compute. exact I.
  - reflexivity.
  - intros n a b. reflexivity.
Defined.
